(** * The provisioning client of create-catalyst

    A shallow embedding of [packages/create-catalyst/src/utils/https.ts]:
    the [Https] class, its three request builders ([auth], [api],
    [sampleDataApi]) and the endpoint methods built on them.

    Modelling choices.
    - A JavaScript number is an integer ([Z]): the numbers the client sends,
      prints or reads (status codes, channel ids, seconds, the epoch
      constant) are integral; fractional JSON numbers are outside the model.
    - A JavaScript object used as a string-keyed record of strings (the
      request headers) is a [gmap string string]; object spread followed by
      literal keys is a chain of inserts over the spread object.
    - An optional property ([x?: T], a destructuring default) is an [option].
    - The program runs on a single thread of control; [await] is sequencing.
      Effects (calls to [fetch], console output, [process.exit]) are threaded
      through a small state-and-outcome monad whose state is the trace of
      observable events. *)

From Stdlib Require Import ZArith List Ascii Lia.
From stdpp Require Import base option list strings gmap pretty.

Open Scope Z_scope.

Set Warnings "-register-all".

(** ** JSON values *)

(** What [JSON.parse] / [response.json()] yield and [JSON.stringify] takes.
    An object is the list of its own properties in key order. *)
Inductive json : Type :=
| JNull
| JBool (b : bool)
| JNum (n : Z)
| JStr (s : string)
| JArr (items : list json)
| JObj (props : list (string * json)).

(** Property access [o[k]]: [None] stands for [undefined]. *)
Fixpoint get_prop (k : string) (props : list (string * json)) : option json :=
  match props with
  | [] => None
  | (k', v) :: rest => if String.eqb k k' then Some v else get_prop k rest
  end.

(** ** The zod schemas used by the client *)

(** The fragment of zod the file uses: [z.string()], [z.string().min(n)],
    [z.string().url()], [z.number()], [z.boolean()], [z.array(s)] and
    [z.object({...})]. *)
Inductive schema : Type :=
| ZString
| ZStringMin (n : nat)
| ZStringUrl
| ZNumber
| ZBoolean
| ZArray (item : schema)
| ZObject (shape : list (string * schema)).

Section Validation.

(** [z.string().url()] accepts what the platform's URL parser accepts;
    that parser is outside the repository and is taken as a parameter. *)
Variable is_url : string -> bool.

(** [safe_parse s v] is the parsed output, or the path of the first issue.
    An object schema keeps the keys of its shape, in the order of the
    shape, and drops every other key of the input (zod's default "strip"
    behaviour); a key of the shape that the input lacks is an issue. *)
Fixpoint safe_parse (s : schema) (v : json) {struct s} : list string + json :=
  match s with
  | ZString =>
      match v with JStr _ => inr v | _ => inl [] end
  | ZStringMin n =>
      match v with
      | JStr x => if (n <=? String.length x)%nat then inr v else inl []
      | _ => inl []
      end
  | ZStringUrl =>
      match v with
      | JStr x => if is_url x then inr v else inl []
      | _ => inl []
      end
  | ZNumber =>
      match v with JNum _ => inr v | _ => inl [] end
  | ZBoolean =>
      match v with JBool _ => inr v | _ => inl [] end
  | ZArray item =>
      match v with
      | JArr xs =>
          let each :=
            fix each (i : nat) (xs : list json) : list string + list json :=
              match xs with
              | [] => inr []
              | x :: rest =>
                  match safe_parse item x with
                  | inl p => inl (pretty i :: p)
                  | inr y =>
                      match each (S i) rest with
                      | inl p => inl p
                      | inr ys => inr (y :: ys)
                      end
                  end
              end in
          match each 0%nat xs with
          | inl p => inl p
          | inr ys => inr (JArr ys)
          end
      | _ => inl []
      end
  | ZObject shape =>
      match v with
      | JObj props =>
          let fields :=
            fix fields (shape : list (string * schema))
              : list string + list (string * json) :=
              match shape with
              | [] => inr []
              | (k, sk) :: rest =>
                  match get_prop k props with
                  | None => inl [k]
                  | Some x =>
                      match safe_parse sk x with
                      | inl p => inl (k :: p)
                      | inr y =>
                          match fields rest with
                          | inl p => inl p
                          | inr ys => inr ((k, y) :: ys)
                          end
                      end
                  end
              end in
          match fields shape with
          | inl p => inl p
          | inr ys => inr (JObj ys)
          end
      | _ => inl []
      end
  end.

End Validation.

(** ** Observable events, outcomes and the effect monad *)

(** [chalk.red] and [chalk.yellow] only style the text they are given. *)
Inductive styled : Type :=
| chalk_red (text : string)
| chalk_yellow (text : string).

(** The argument of [JSON.stringify]: the model keeps the value that is
    serialised in place of its text. *)
Inductive BodyInit : Type :=
| JSON_stringify (value : json).

(** [RequestInit], restricted to the members this file reads or writes.
    [headers] is the plain-object form of [HeadersInit]: header names to
    values. *)
Record RequestInit : Type := mkInit {
  method : option string;
  headers : option (gmap string string);
  body : option BodyInit;
}.

(** The default [opts = {}]. *)
Definition no_opts : RequestInit :=
  {| method := None; headers := None; body := None |}.

Record response : Type := mkResponse {
  status : Z;
  statusText : string;
  (** the body read as JSON; [None] when the text is not JSON *)
  payload : option json;
}.

(** [Response.ok]: the status is in the range 200-299. *)
Definition ok (r : response) : bool :=
  (200 <=? status r) && (status r <=? 299).

Inductive fetch_result : Type :=
| Resolved (r : response)
| Rejected.

(** What the program does that the outside can observe. [Sleep] is the
    pause between two polls of the device-code loop. *)
Inductive event : Type :=
| Fetch (input : string) (init : RequestInit)
| ConsoleError (text : styled)
| ConsoleWarn (text : styled)
| Sleep (seconds : Z).

Definition trace : Type := list event.

(** What can be thrown: [new Error(message)] by the client itself; the
    rejection of [fetch] (no response at all); the rejection of
    [response.json()] (the body is not JSON); the validation error of
    [parse]; the expiry of the device code in the polling loop. *)
Inductive exn : Type :=
| Error (message : string)
| FetchFailed
| BodyNotJson
| ValidationError (path : list string)
| AuthTimeoutError.

(** How a call ends: it returns, it throws (an [async] method rejects), or
    the process is gone ([process.exit]). *)
Inductive outcome (A : Type) : Type :=
| Returned (a : A)
| Threw (e : exn)
| Exited (code : Z).

Arguments Returned {A} a.
Arguments Threw {A} e.
Arguments Exited {A} code.

Definition M (A : Type) : Type := trace -> outcome A * trace.

Definition ret {A} (a : A) : M A := fun t => (Returned a, t).

Definition bind {A B} (c : M A) (k : A -> M B) : M B :=
  fun t =>
    match c t with
    | (Returned a, t') => k a t'
    | (Threw e, t') => (Threw e, t')
    | (Exited code, t') => (Exited code, t')
    end.

Notation "'await' x <- c ; k" := (bind c (fun x => k))
  (at level 10, x name, c at level 99, k at level 200).
Notation "c ;; k" := (bind c (fun _ => k))
  (at level 100, k at level 200, right associativity).

Definition throw {A} (e : exn) : M A := fun t => (Threw e, t).

Definition emit (e : event) : M unit := fun t => (Returned tt, t ++ [e]).

Definition console_error (text : styled) : M unit := emit (ConsoleError text).
Definition console_warn (text : styled) : M unit := emit (ConsoleWarn text).

(** [process.exit(code)] never returns. *)
Definition process_exit {A} (code : Z) : M A := fun t => (Exited code, t).

(** [try { body } catch { handler }]: only a throw is caught. *)
Definition try_catch {A} (c : M A) (handler : exn -> M A) : M A :=
  fun t =>
    match c t with
    | (Threw e, t') => handler e t'
    | r => r
    end.

(** The requests issued so far, oldest first. *)
Definition fetches (t : trace) : list (string * RequestInit) :=
  omap (fun e => match e with Fetch u i => Some (u, i) | _ => None end) t.

(** JavaScript truthiness of a string: only the empty string is falsy. *)
Definition truthy (s : string) : bool :=
  match s with EmptyString => false | String _ _ => true end.

Definition nl : string := String "010"%char EmptyString.

(** [Array.prototype.join] on an array of strings. *)
Fixpoint join (sep : string) (xs : list string) : string :=
  match xs with
  | [] => ""
  | [x] => x
  | x :: rest => x +:+ sep +:+ join sep rest
  end.

(** ** The [Https] class *)

(** [HttpsConfig]: every member is optional. *)
Module HttpsConfig.
Record t : Type := mk {
  bigCommerceApiUrl : option string;
  bigCommerceAuthUrl : option string;
  sampleDataApiUrl : option string;
  storeHash : option string;
  accessToken : option string;
}.
End HttpsConfig.

Record Https : Type := mkHttps {
  bigCommerceApiUrl : string;
  bigCommerceAuthUrl : string;
  sampleDataApiUrl : string;
  storeHash : string;
  accessToken : string;
  userAgent : string;
}.

Definition DEVICE_OAUTH_CLIENT_ID : string := "acse0vvawm9r1n0evag4b8e1ea1fo90".
Definition MAX_EPOC_EXPIRES_AT : Z := 2147483647.

Definition BigCommerceStoreInfo : schema :=
  ZObject [("features",
            ZObject [("storefront_limits",
                      ZObject [("active", ZNumber);
                               ("total_including_inactive", ZNumber)])])].

Definition BigCommerceV3ApiResponseSchema (s : schema) : schema :=
  ZObject [("data", s); ("meta", ZObject [])].

Definition BigCommerceChannelsV3ResponseSchema : schema :=
  BigCommerceV3ApiResponseSchema
    (ZArray (ZObject [("id", ZNumber); ("name", ZString);
                      ("status", ZString); ("platform", ZString)])).

Definition DeviceCodeSchema : schema :=
  ZObject [("device_code", ZString); ("user_code", ZString);
           ("verification_uri", ZString); ("expires_in", ZNumber);
           ("interval", ZNumber)].

Definition DeviceCodeSuccessSchema : schema :=
  ZObject [("access_token", ZString); ("store_hash", ZString);
           ("context", ZString); ("api_uri", ZStringUrl)].

Definition BigCommerceStorefrontTokenSchema : schema :=
  ZObject [("data", ZObject [("token", ZString)])].

Definition CheckEligibilitySchema : schema :=
  ZObject [("data", ZObject [("eligible", ZBoolean); ("message", ZString)])].

Definition SampleDataChannelCreateSchema : schema :=
  ZObject [("data", ZObject [("id", ZNumber); ("name", ZStringMin 1);
                             ("storefront_api_token", ZString)])].

(** The scope list of [getDeviceCode]. *)
Definition DEVICE_OAUTH_SCOPES : list string :=
  ["store_channel_settings"; "store_sites"; "store_storefront_api";
   "store_v2_content"; "store_v2_information"; "store_v2_products";
   "store_cart"].

Definition CHANNEL_MENU_SECTIONS : list string :=
  ["storefront_settings"; "currencies"; "domains"; "notifications"; "social"].

Definition CHANNEL_MENUS_DOC : string :=
  "https://developer.bigcommerce.com/docs/rest-management/channels/menus#create-channel-menus".

Section Client.

Variable is_url : string -> bool.

(** What [getCLIUserAgent()] returns; [./user-agent] is outside the
    sources at hand. *)
Variable getCLIUserAgent : string.

(** The network: what [fetch] settles to for a request, given everything
    observed before it. *)
Variable transport : trace -> string -> RequestInit -> fetch_result.

Definition fetch (input : string) (init : RequestInit) : M response :=
  fun t =>
    match transport t input init with
    | Resolved r => (Returned r, t ++ [Fetch input init])
    | Rejected => (Threw FetchFailed, t ++ [Fetch input init])
    end.

(** [response.json()] *)
Definition json_of (r : response) : M json :=
  match payload r with
  | Some v => ret v
  | None => throw BodyNotJson
  end.

(** Modelled from the spec: [parse] of [./parse] is not among the sources.
    Section 4.1: it checks the raw payload against the expected shape,
    returns the typed value, fails with a validation error on mismatch and
    has no side effects. *)
Definition parse (data : json) (s : schema) : M json :=
  match safe_parse is_url s data with
  | inr v => ret v
  | inl path => throw (ValidationError path)
  end.

Definition constructor (cfg : HttpsConfig.t) : Https :=
  {| bigCommerceApiUrl := default "" (HttpsConfig.bigCommerceApiUrl cfg);
     bigCommerceAuthUrl := default "" (HttpsConfig.bigCommerceAuthUrl cfg);
     sampleDataApiUrl := default "" (HttpsConfig.sampleDataApiUrl cfg);
     storeHash := default "" (HttpsConfig.storeHash cfg);
     accessToken := default "" (HttpsConfig.accessToken cfg);
     userAgent := getCLIUserAgent |}.

(** The [options] object that [auth] builds from [opts]: the caller's
    headers are spread first, the fixed ones are written over them; the
    rest of [opts] is spread over the default method. *)
Definition auth_options (this : Https) (opts : RequestInit) : RequestInit :=
  let headers0 := default ∅ (headers opts) in
  {| method := Some (default "POST" (method opts));
     headers :=
       Some (<["User-Agent" := userAgent this]>
               (<["Content-Type" := "application/json"]>
                  (<["Accept" := "application/json"]> headers0)));
     body := body opts |}.

Definition auth (this : Https) (path : string) (opts : RequestInit)
  : M response :=
  if negb (truthy (bigCommerceAuthUrl this)) then
    throw (Error "bigCommerceAuthUrl is required to make API requests")
  else
    fetch (bigCommerceAuthUrl this +:+ path) (auth_options this opts).

(** The [options] object of [api]; it sets no default method. *)
Definition api_options (this : Https) (opts : RequestInit) : RequestInit :=
  let headers0 := default ∅ (headers opts) in
  {| method := method opts;
     headers :=
       Some (<["User-Agent" := userAgent this]>
               (<["X-Auth-Token" := accessToken this]>
                  (<["Accept" := "application/json"]> headers0)));
     body := body opts |}.

Definition api (this : Https) (path : string) (opts : RequestInit)
  : M response :=
  if negb (truthy (bigCommerceApiUrl this))
     || negb (truthy (storeHash this))
     || negb (truthy (accessToken this)) then
    throw (Error "bigCommerceApiUrl, storeHash, and accessToken are required to make API requests")
  else
    fetch (bigCommerceApiUrl this +:+ "/stores/" +:+ storeHash this +:+ path)
          (api_options this opts).

(** The [options] object of [sampleDataApi]. *)
Definition sampleDataApi_options (this : Https) (opts : RequestInit)
  : RequestInit :=
  let headers0 := default ∅ (headers opts) in
  {| method := Some (default "POST" (method opts));
     headers :=
       Some (<["User-Agent" := userAgent this]>
               (<["X-Auth-Token" := accessToken this]>
                  (<["Content-Type" := "application/json"]>
                     (<["Accept" := "application/json"]> headers0))));
     body := body opts |}.

Definition sampleDataApi (this : Https) (path : string) (opts : RequestInit)
  : M response :=
  if negb (truthy (sampleDataApiUrl this))
     || negb (truthy (storeHash this))
     || negb (truthy (accessToken this)) then
    throw (Error "sampleDataApiUrl, storeHash, and accessToken are required to make API requests")
  else
    fetch (sampleDataApiUrl this +:+ "/stores/" +:+ storeHash this +:+ path)
          (sampleDataApi_options this opts).

Definition getDeviceCode (this : Https) : M json :=
  await response <-
    auth this "/device/token"
      {| method := None; headers := None;
         body := Some (JSON_stringify
                         (JObj [("scopes", JStr (join " " DEVICE_OAUTH_SCOPES));
                                ("client_id", JStr DEVICE_OAUTH_CLIENT_ID)])) |};
  (if negb (ok response) then
     console_error
       (chalk_red (nl +:+ "POST /device/token failed: "
                      +:+ pretty (status response) +:+ " "
                      +:+ statusText response +:+ nl)) ;;
     process_exit 1
   else ret tt) ;;
  await data <- json_of response;
  parse data DeviceCodeSchema.

Definition checkDeviceCode (this : Https) (deviceCode : string) : M json :=
  await response <-
    auth this "/device/token"
      {| method := None; headers := None;
         body := Some (JSON_stringify
                         (JObj [("device_code", JStr deviceCode);
                                ("client_id", JStr DEVICE_OAUTH_CLIENT_ID)])) |};
  if negb (status response =? 200) then
    throw (Error "Device code not yet verified")
  else
    await data <- json_of response;
    parse data DeviceCodeSuccessSchema.

Definition storeInformation (this : Https) : M json :=
  await res <- api this "/v2/store" no_opts;
  (if negb (ok res) then
     console_error
       (chalk_red (nl +:+ "GET /v2/store failed: "
                      +:+ pretty (status res) +:+ " "
                      +:+ statusText res +:+ nl)) ;;
     process_exit 1
   else ret tt) ;;
  await data <- json_of res;
  parse data BigCommerceStoreInfo.

(** [query] defaults to the empty string. *)
Definition channels (this : Https) (query : option string) : M json :=
  await res <- api this ("/v3/channels" +:+ default "" query) no_opts;
  (if negb (ok res) then
     console_error
       (chalk_red (nl +:+ "GET /v3/channels failed: "
                      +:+ pretty (status res) +:+ " "
                      +:+ statusText res +:+ nl)) ;;
     process_exit 1
   else ret tt) ;;
  await data <- json_of res;
  parse data BigCommerceChannelsV3ResponseSchema.

Definition createChannelMenus (this : Https) (channelId : Z) : M unit :=
  await res <-
    api this ("/v3/channels/" +:+ pretty channelId +:+ "/channel-menus")
      {| method := Some "POST";
         headers := Some {[ "Content-Type" := "application/json" ]};
         body := Some (JSON_stringify
                         (JObj [("bigcommerce_protected_app_sections",
                                 JArr (JStr <$> CHANNEL_MENU_SECTIONS))])) |};
  if negb (ok res) then
    console_warn
      (chalk_yellow (nl +:+ "Failed to create channel menus: "
                        +:+ pretty (status res) +:+ " "
                        +:+ statusText res
                        +:+ ". You may want to create these later: "
                        +:+ CHANNEL_MENUS_DOC +:+ nl))
  else ret tt.

Definition storefrontToken (this : Https) : M json :=
  await res <-
    api this "/v3/storefront/api-token"
      {| method := Some "POST";
         headers := Some {[ "Content-Type" := "application/json" ]};
         body := Some (JSON_stringify
                         (JObj [("expires_at", JNum MAX_EPOC_EXPIRES_AT);
                                ("channel_ids", JArr [])])) |};
  (if negb (ok res) then
     console_error
       (chalk_red (nl +:+ "POST /v3/storefront/api-token failed: "
                      +:+ pretty (status res) +:+ " "
                      +:+ statusText res +:+ nl)) ;;
     process_exit 1
   else ret tt) ;;
  await data <- json_of res;
  parse data BigCommerceStorefrontTokenSchema.

Definition checkEligibility (this : Https) : M json :=
  await res <-
    sampleDataApi this "/v3/channels/catalyst/eligibility"
      {| method := Some "GET"; headers := None; body := None |};
  (if negb (ok res) then
     console_error
       (chalk_red (nl +:+ "GET /v3/channels/catalyst/eligibility failed: "
                      +:+ pretty (status res) +:+ " "
                      +:+ statusText res +:+ nl)) ;;
     process_exit 1
   else ret tt) ;;
  await data <- json_of res;
  parse data CheckEligibilitySchema.

Definition createChannel (this : Https) (channelName : string) : M json :=
  await res <-
    sampleDataApi this "/v3/channels/catalyst"
      {| method := None; headers := None;
         body := Some (JSON_stringify
                         (JObj [("name", JStr channelName);
                                ("tokenType", JStr "normal")])) |};
  (if negb (ok res) then
     console_error
       (chalk_red (nl +:+ "POST /v3/channels/catalyst failed: "
                      +:+ pretty (status res) +:+ " "
                      +:+ statusText res +:+ nl)) ;;
     process_exit 1
   else ret tt) ;;
  await data <- json_of res;
  parse data SampleDataChannelCreateSchema.

(** *** Device-code polling *)

(** The [DeviceCode] of section 3 of the specification. *)
Record DeviceCode : Type := mkDeviceCode {
  deviceCode : string;
  userCode : string;
  verificationUri : string;
  expiresInSeconds : Z;
  pollIntervalSeconds : Z;
}.

(** The condition [checkDeviceCode] raises for a status other than 200. *)
Definition is_pending (e : exn) : bool :=
  match e with
  | Error message => String.eqb message "Device code not yet verified"
  | _ => false
  end.

(** Modelled from the spec: the polling loop ([pollForToken], section 4.3)
    is not among the sources. One attempt is made every
    [pollIntervalSeconds]; an attempt is a call of [checkDeviceCode]; a
    grant ends the loop; the not-yet-authorized condition continues it;
    the loop stops, with [AuthTimeoutError], once the elapsed time would
    exceed [expiresInSeconds]; any other failure is not retried.
    [elapsed] counts the seconds slept since the code was issued. The loop
    has no bound of its own on the number of rounds, hence the fuel:
    [None] is returned when it runs out. *)
Fixpoint pollForToken_from (fuel : nat) (this : Https) (code : DeviceCode)
    (elapsed : Z) : M (option json) :=
  match fuel with
  | O => ret None
  | S fuel' =>
      if expiresInSeconds code <? elapsed + pollIntervalSeconds code then
        throw AuthTimeoutError
      else
        emit (Sleep (pollIntervalSeconds code)) ;;
        await attempt <-
          try_catch
            (await grant <- checkDeviceCode this (deviceCode code);
             ret (Some grant))
            (fun e => if is_pending e then ret None else throw e);
        match attempt with
        | Some grant => ret (Some grant)
        | None =>
            pollForToken_from fuel' this code
              (elapsed + pollIntervalSeconds code)
        end
  end.

Definition pollForToken (fuel : nat) (this : Https) (code : DeviceCode)
  : M (option json) :=
  pollForToken_from fuel this code 0.

End Client.

(** The ceiling of [e / i], for [i > 0]. *)
Definition ceil_div (e i : Z) : Z := - ((- e) / i).

(** One round of the polling loop as it shows in the trace. *)
Definition poll_round (this : Https) (code : DeviceCode) : trace :=
  [Sleep (pollIntervalSeconds code);
   Fetch (bigCommerceAuthUrl this +:+ "/device/token")
         (auth_options this
            {| method := None; headers := None;
               body := Some (JSON_stringify
                               (JObj [("device_code", JStr (deviceCode code));
                                      ("client_id", JStr DEVICE_OAUTH_CLIENT_ID)])) |})].

Fixpoint poll_rounds (n : nat) (this : Https) (code : DeviceCode) : trace :=
  match n with
  | O => []
  | S n' => poll_round this code ++ poll_rounds n' this code
  end.

(** The seconds slept along a trace. *)
Fixpoint slept (t : trace) : Z :=
  match t with
  | [] => 0
  | Sleep s :: rest => s + slept rest
  | _ :: rest => slept rest
  end.

(** An outcome is surfaced to the caller when the caller receives it as
    a thrown condition it can catch and classify. *)
Definition surfaced_to_caller {A} (o : outcome A) : Prop :=
  exists e, o = Threw e.

(** A credential counts as supplied when it is present and not empty. *)
Definition supplied (o : option string) : bool := truthy (default "" o).

(** Drop an empty-string credential, as if it had been omitted. *)
Definition omit_empty (o : option string) : option string :=
  match o with
  | Some s => if truthy s then Some s else None
  | None => None
  end.

Definition omit_empties (cfg : HttpsConfig.t) : HttpsConfig.t :=
  {| HttpsConfig.bigCommerceApiUrl := omit_empty (HttpsConfig.bigCommerceApiUrl cfg);
     HttpsConfig.bigCommerceAuthUrl := omit_empty (HttpsConfig.bigCommerceAuthUrl cfg);
     HttpsConfig.sampleDataApiUrl := omit_empty (HttpsConfig.sampleDataApiUrl cfg);
     HttpsConfig.storeHash := omit_empty (HttpsConfig.storeHash cfg);
     HttpsConfig.accessToken := omit_empty (HttpsConfig.accessToken cfg) |}.

(** The required subset of each request builder, on a configuration. *)
Definition api_configured (cfg : HttpsConfig.t) : bool :=
  supplied (HttpsConfig.bigCommerceApiUrl cfg)
  && supplied (HttpsConfig.storeHash cfg)
  && supplied (HttpsConfig.accessToken cfg).

Definition sampleDataApi_configured (cfg : HttpsConfig.t) : bool :=
  supplied (HttpsConfig.sampleDataApiUrl cfg)
  && supplied (HttpsConfig.storeHash cfg)
  && supplied (HttpsConfig.accessToken cfg).

Definition auth_configured (cfg : HttpsConfig.t) : bool :=
  supplied (HttpsConfig.bigCommerceAuthUrl cfg).

(** The same subsets on an instance: what the guards of [api],
    [sampleDataApi] and [auth] let through. *)
Definition api_ready (this : Https) : bool :=
  truthy (bigCommerceApiUrl this) && truthy (storeHash this)
  && truthy (accessToken this).

Definition sampleDataApi_ready (this : Https) : bool :=
  truthy (sampleDataApiUrl this) && truthy (storeHash this)
  && truthy (accessToken this).

Definition auth_ready (this : Https) : bool :=
  truthy (bigCommerceAuthUrl this).

(** The value of header [name] in the options handed to [fetch]. *)
Definition header_of (init : RequestInit) (name : string) : option string :=
  match headers init with
  | Some hs => hs !! name
  | None => None
  end.

(** The transport answers [r] to whatever is requested after trace [t]. *)
Definition answers (transport : trace -> string -> RequestInit -> fetch_result)
    (t : trace) (r : response) : Prop :=
  forall input init, transport t input init = Resolved r.

(** The text reported for a failed call: it names the call (method and
    endpoint) and carries the status and the status text. *)
Definition failure_report (call : string) (r : response) : string :=
  nl +:+ call +:+ " failed: " +:+ pretty (status r) +:+ " "
     +:+ statusText r +:+ nl.

(** The text of the warning of [createChannelMenus]. *)
Definition menus_warning (r : response) : string :=
  nl +:+ "Failed to create channel menus: " +:+ pretty (status r) +:+ " "
     +:+ statusText r +:+ ". You may want to create these later: "
     +:+ CHANNEL_MENUS_DOC +:+ nl.

(** What a method hands back for a response it goes on to read: the JSON
    payload checked against the method's schema. *)
Definition validated (is_url : string -> bool) (s : schema) (r : response)
  : outcome json :=
  match payload r with
  | None => Threw BodyNotJson
  | Some data =>
      match safe_parse is_url s data with
      | inr v => Returned v
      | inl path => Threw (ValidationError path)
      end
  end.

(** Every request is answered, and never with status 200. *)
Definition always_pending
    (transport : trace -> string -> RequestInit -> fetch_result) : Prop :=
  forall t input init,
    exists r, transport t input init = Resolved r /\ status r <> 200.

(** ** Sample instances *)

Module Sample.

Definition is_url (s : string) : bool := String.prefix "https://" s.

Definition agent : string := "create-catalyst".

(** A transport that answers every request with [r]. *)
Definition always (r : response) : trace -> string -> RequestInit -> fetch_result :=
  fun _ _ _ => Resolved r.

Definition server_error : response :=
  {| status := 500; statusText := "Internal Server Error"; payload := None |}.

Definition pending : response :=
  {| status := 400; statusText := "Bad Request"; payload := None |}.

Definition forbidden : response :=
  {| status := 403; statusText := "Forbidden"; payload := None |}.

Definition ok_with (v : json) : response :=
  {| status := 200; statusText := "OK"; payload := Some v |}.

Definition cfg : HttpsConfig.t :=
  {| HttpsConfig.bigCommerceApiUrl := Some "https://api.example";
     HttpsConfig.bigCommerceAuthUrl := Some "https://login.example";
     HttpsConfig.sampleDataApiUrl := Some "https://sample.example";
     HttpsConfig.storeHash := Some "abc123";
     HttpsConfig.accessToken := Some "secret" |}.

Definition client : Https := constructor agent cfg.

(** Only the device-authorization URL is configured. *)
Definition auth_only : HttpsConfig.t :=
  {| HttpsConfig.bigCommerceApiUrl := None;
     HttpsConfig.bigCommerceAuthUrl := Some "https://login.example";
     HttpsConfig.sampleDataApiUrl := None;
     HttpsConfig.storeHash := None;
     HttpsConfig.accessToken := None |}.

(** Nothing is configured. *)
Definition nothing : HttpsConfig.t :=
  {| HttpsConfig.bigCommerceApiUrl := None;
     HttpsConfig.bigCommerceAuthUrl := None;
     HttpsConfig.sampleDataApiUrl := None;
     HttpsConfig.storeHash := None;
     HttpsConfig.accessToken := None |}.

(** The store hash and the authorization URL are given as empty strings. *)
Definition empties : HttpsConfig.t :=
  {| HttpsConfig.bigCommerceApiUrl := Some "https://api.example";
     HttpsConfig.bigCommerceAuthUrl := Some "";
     HttpsConfig.sampleDataApiUrl := Some "https://sample.example";
     HttpsConfig.storeHash := Some "";
     HttpsConfig.accessToken := Some "secret" |}.

(** Caller options that try to replace every fixed header. *)
Definition hostile_opts : RequestInit :=
  {| method := Some "DELETE";
     headers := Some (<["Accept" := "text/html"]>
                        (<["User-Agent" := "curl"]>
                           (<["X-Auth-Token" := "stolen"]>
                              {[ "Content-Type" := "text/plain" ]})));
     body := None |}.

Definition device_code_payload : json :=
  JObj [("device_code", JStr "abc"); ("user_code", JStr "XYZ");
        ("verification_uri", JStr "https://x"); ("expires_in", JNum 60);
        ("interval", JNum 5)].

Definition grant_payload : json :=
  JObj [("access_token", JStr "tok"); ("store_hash", JStr "abc123");
        ("context", JStr "stores/abc123");
        ("api_uri", JStr "https://api.example")].



Definition device : DeviceCode :=
  {| deviceCode := "abc"; userCode := "XYZ"; verificationUri := "https://x";
     expiresInSeconds := 60; pollIntervalSeconds := 5 |}.

End Sample.

(** ** The validator, loop by loop *)

(** The loop of [safe_parse] over the shape of an object schema, for the
    properties [props] of the input. *)
Definition parse_fields (is_url : string -> bool)
    (props : list (string * json))
  : list (string * schema) -> list string + list (string * json) :=
  fix fields (shape : list (string * schema)) :=
    match shape with
    | [] => inr []
    | (k, sk) :: rest =>
        match get_prop k props with
        | None => inl [k]
        | Some x =>
            match safe_parse is_url sk x with
            | inl p => inl (k :: p)
            | inr y =>
                match fields rest with
                | inl p => inl p
                | inr ys => inr ((k, y) :: ys)
                end
            end
        end
    end.

(** The loop of [safe_parse] over the items of an array. *)
Definition parse_items (is_url : string -> bool) (item : schema)
  : nat -> list json -> list string + list json :=
  fix each (i : nat) (xs : list json) :=
    match xs with
    | [] => inr []
    | x :: rest =>
        match safe_parse is_url item x with
        | inl p => inl (pretty i :: p)
        | inr y =>
            match each (S i) rest with
            | inl p => inl p
            | inr ys => inr (y :: ys)
            end
        end
    end.

(** An object schema written as a literal has each key once, at every
    depth. *)
Fixpoint distinct_keys (s : schema) : bool :=
  match s with
  | ZArray item => distinct_keys item
  | ZObject shape =>
      bool_decide (NoDup (shape.*1))
      && forallb (fun ks => let '(_, sk) := ks in distinct_keys sk) shape
  | _ => true
  end.

(** The own property names of an object, in order; [None] for any other
    value. *)
Definition keys (v : json) : option (list string) :=
  match v with
  | JObj props => Some (props.*1)
  | _ => None
  end.

(** The keys an object schema asks for, in order. *)
Definition schema_keys (s : schema) : option (list string) :=
  match s with
  | ZObject shape => Some (shape.*1)
  | _ => None
  end.

(** The fields an object schema asks for, with the schema of each. *)
Definition schema_shape (s : schema) : list (string * schema) :=
  match s with
  | ZObject shape => shape
  | _ => []
  end.

(** ** The endpoint methods as one table *)

(** The seven methods that return a validated payload. *)
Inductive endpoint : Type :=
| GetDeviceCode
| CheckDeviceCode (deviceCode : string)
| StoreInformation
| Channels (query : option string)
| StorefrontToken
| CheckEligibility
| CreateChannel (channelName : string).

Definition call (is_url : string -> bool)
    (transport : trace -> string -> RequestInit -> fetch_result)
    (this : Https) (ep : endpoint) : M json :=
  match ep with
  | GetDeviceCode => getDeviceCode is_url transport this
  | CheckDeviceCode deviceCode => checkDeviceCode is_url transport this deviceCode
  | StoreInformation => storeInformation is_url transport this
  | Channels query => channels is_url transport this query
  | StorefrontToken => storefrontToken is_url transport this
  | CheckEligibility => checkEligibility is_url transport this
  | CreateChannel channelName => createChannel is_url transport this channelName
  end.

(** The request builder a method goes through. *)
Inductive surface : Type := ViaAuth | ViaApi | ViaSampleDataApi.

Definition surface_of (ep : endpoint) : surface :=
  match ep with
  | GetDeviceCode | CheckDeviceCode _ => ViaAuth
  | StoreInformation | Channels _ | StorefrontToken => ViaApi
  | CheckEligibility | CreateChannel _ => ViaSampleDataApi
  end.

Definition ready (s : surface) (this : Https) : bool :=
  match s with
  | ViaAuth => auth_ready this
  | ViaApi => api_ready this
  | ViaSampleDataApi => sampleDataApi_ready this
  end.

(** The message of the guard of each builder. *)
Definition guard_message (s : surface) : string :=
  match s with
  | ViaAuth => "bigCommerceAuthUrl is required to make API requests"
  | ViaApi =>
      "bigCommerceApiUrl, storeHash, and accessToken are required to make API requests"
  | ViaSampleDataApi =>
      "sampleDataApiUrl, storeHash, and accessToken are required to make API requests"
  end.

(** The URL each builder requests for a path. *)
Definition url_of (s : surface) (this : Https) (path : string) : string :=
  match s with
  | ViaAuth => bigCommerceAuthUrl this +:+ path
  | ViaApi => bigCommerceApiUrl this +:+ "/stores/" +:+ storeHash this +:+ path
  | ViaSampleDataApi =>
      sampleDataApiUrl this +:+ "/stores/" +:+ storeHash this +:+ path
  end.

Definition options (s : surface) (this : Https) (opts : RequestInit)
  : RequestInit :=
  match s with
  | ViaAuth => auth_options this opts
  | ViaApi => api_options this opts
  | ViaSampleDataApi => sampleDataApi_options this opts
  end.

Definition path_of (ep : endpoint) : string :=
  match ep with
  | GetDeviceCode | CheckDeviceCode _ => "/device/token"
  | StoreInformation => "/v2/store"
  | Channels query => "/v3/channels" +:+ default "" query
  | StorefrontToken => "/v3/storefront/api-token"
  | CheckEligibility => "/v3/channels/catalyst/eligibility"
  | CreateChannel _ => "/v3/channels/catalyst"
  end.

(** The [opts] each method passes to its builder. *)
Definition opts_of (ep : endpoint) : RequestInit :=
  match ep with
  | GetDeviceCode =>
      {| method := None; headers := None;
         body := Some (JSON_stringify
                         (JObj [("scopes", JStr (join " " DEVICE_OAUTH_SCOPES));
                                ("client_id", JStr DEVICE_OAUTH_CLIENT_ID)])) |}
  | CheckDeviceCode deviceCode =>
      {| method := None; headers := None;
         body := Some (JSON_stringify
                         (JObj [("device_code", JStr deviceCode);
                                ("client_id", JStr DEVICE_OAUTH_CLIENT_ID)])) |}
  | StoreInformation | Channels _ => no_opts
  | StorefrontToken =>
      {| method := Some "POST";
         headers := Some {[ "Content-Type" := "application/json" ]};
         body := Some (JSON_stringify
                         (JObj [("expires_at", JNum MAX_EPOC_EXPIRES_AT);
                                ("channel_ids", JArr [])])) |}
  | CheckEligibility =>
      {| method := Some "GET"; headers := None; body := None |}
  | CreateChannel channelName =>
      {| method := None; headers := None;
         body := Some (JSON_stringify
                         (JObj [("name", JStr channelName);
                                ("tokenType", JStr "normal")])) |}
  end.

Definition schema_of (ep : endpoint) : schema :=
  match ep with
  | GetDeviceCode => DeviceCodeSchema
  | CheckDeviceCode _ => DeviceCodeSuccessSchema
  | StoreInformation => BigCommerceStoreInfo
  | Channels _ => BigCommerceChannelsV3ResponseSchema
  | StorefrontToken => BigCommerceStorefrontTokenSchema
  | CheckEligibility => CheckEligibilitySchema
  | CreateChannel _ => SampleDataChannelCreateSchema
  end.

(** The call named in the failure text of each method. *)
Definition label_of (ep : endpoint) : string :=
  match ep with
  | GetDeviceCode | CheckDeviceCode _ => "POST /device/token"
  | StoreInformation => "GET /v2/store"
  | Channels _ => "GET /v3/channels"
  | StorefrontToken => "POST /v3/storefront/api-token"
  | CheckEligibility => "GET /v3/channels/catalyst/eligibility"
  | CreateChannel _ => "POST /v3/channels/catalyst"
  end.

(** The responses a method goes on to read: [checkDeviceCode] tests
    [status !== 200], the others test [ok]. *)
Definition accepts (ep : endpoint) (r : response) : bool :=
  match ep with
  | CheckDeviceCode _ => status r =? 200
  | _ => ok r
  end.

(** What a method does with a response it does not go on to read. *)
Definition refusal (ep : endpoint) (r : response) (t : trace)
  : outcome json * trace :=
  match ep with
  | CheckDeviceCode _ => (Threw (Error "Device code not yet verified"), t)
  | _ =>
      (Exited 1, t ++ [ConsoleError (chalk_red (failure_report (label_of ep) r))])
  end.

(** The request of a method, as logged. *)
Definition request_of (this : Https) (ep : endpoint) : event :=
  Fetch (url_of (surface_of ep) this (path_of ep))
        (options (surface_of ep) this (opts_of ep)).

(** The whole behaviour of a method, read off the table. *)
Definition behaviour (is_url : string -> bool)
    (transport : trace -> string -> RequestInit -> fetch_result)
    (this : Https) (ep : endpoint) (t : trace) : outcome json * trace :=
  if ready (surface_of ep) this then
    match transport t (url_of (surface_of ep) this (path_of ep))
            (options (surface_of ep) this (opts_of ep)) with
    | Rejected => (Threw FetchFailed, t ++ [request_of this ep])
    | Resolved r =>
        if accepts ep r then
          (validated is_url (schema_of ep) r, t ++ [request_of this ep])
        else refusal ep r (t ++ [request_of this ep])
    end
  else (Threw (Error (guard_message (surface_of ep))), t).

(** The request of [createChannelMenus], as logged. *)
Definition menus_request (this : Https) (channelId : Z) : event :=
  Fetch (bigCommerceApiUrl this +:+ "/stores/" +:+ storeHash this
           +:+ "/v3/channels/" +:+ pretty channelId +:+ "/channel-menus")
        (api_options this
           {| method := Some "POST";
              headers := Some {[ "Content-Type" := "application/json" ]};
              body := Some (JSON_stringify
                              (JObj [("bigcommerce_protected_app_sections",
                                      JArr (JStr <$> CHANNEL_MENU_SECTIONS))])) |}).

(** The console output along a trace. *)
Definition console (t : trace) : list event :=
  List.filter (fun e => match e with
                        | ConsoleError _ | ConsoleWarn _ => true
                        | _ => false
                        end) t.

(** The transport fails to answer whatever is requested after trace [t]. *)
Definition unreachable
    (transport : trace -> string -> RequestInit -> fetch_result) (t : trace)
  : Prop :=
  forall input init, transport t input init = Rejected.

(** ** More sample instances *)

Module Cases.

(** A transport that never answers. *)
Definition offline : trace -> string -> RequestInit -> fetch_result :=
  fun _ _ _ => Rejected.

Definition created_with (v : json) : response :=
  {| status := 201; statusText := "Created"; payload := Some v |}.

(** A 2xx response whose body is not JSON. *)
Definition no_content : response :=
  {| status := 204; statusText := "No Content"; payload := None |}.

(** A store-information payload with more than the schema asks for. *)
Definition store_payload : json :=
  JObj [("id", JStr "abc123");
        ("features",
         JObj [("storefront_limits",
                JObj [("active", JNum 1); ("total_including_inactive", JNum 3);
                      ("plan", JStr "trial")]);
               ("stencil_enabled", JBool true)])].

Definition channels_payload : json :=
  JObj [("data",
         JArr [JObj [("id", JNum 1); ("name", JStr "Storefront");
                     ("status", JStr "active"); ("platform", JStr "bigcommerce");
                     ("icon_url", JStr "https://x/icon")];
               JObj [("id", JNum 42); ("name", JStr "Catalyst");
                     ("status", JStr "prelaunch"); ("platform", JStr "catalyst")]]);
        ("meta", JObj [("pagination", JObj [("total", JNum 2)])])].

(** The same list without its [meta]. *)
Definition channels_without_meta : json :=
  JObj [("data", JArr [])].

(** A grant whose [api_uri] is not a URL. *)
Definition grant_with_bad_uri : json :=
  JObj [("access_token", JStr "tok"); ("store_hash", JStr "abc123");
        ("context", JStr "stores/abc123"); ("api_uri", JStr "api.example")].


End Cases.

(** * Properties *)

(** ** Stepping lemmas *)

Section Steps.

Context (transport : trace -> string -> RequestInit -> fetch_result).

Lemma fetch_resolved input init t r :
  transport t input init = Resolved r ->
  fetch transport input init t = (Returned r, t ++ [Fetch input init]).
Proof. intros H. unfold fetch. now rewrite H. Qed.

Lemma fetch_logged input init t :
  snd (fetch transport input init t) = t ++ [Fetch input init].
Proof. unfold fetch. now destruct (transport t input init). Qed.

Lemma auth_not_ready this path opts t :
  auth_ready this = false ->
  auth transport this path opts t
  = (Threw (Error "bigCommerceAuthUrl is required to make API requests"), t).
Proof. unfold auth_ready, auth. now intros ->. Qed.

Lemma auth_is_fetch this path opts :
  auth_ready this = true ->
  auth transport this path opts
  = fetch transport (bigCommerceAuthUrl this +:+ path) (auth_options this opts).
Proof. unfold auth_ready, auth. now intros ->. Qed.

Lemma api_not_ready this path opts t :
  api_ready this = false ->
  api transport this path opts t
  = (Threw (Error "bigCommerceApiUrl, storeHash, and accessToken are required to make API requests"), t).
Proof.
  unfold api_ready, api. intros H.
  rewrite <- !negb_andb, H. reflexivity.
Qed.

Lemma api_is_fetch this path opts :
  api_ready this = true ->
  api transport this path opts
  = fetch transport
      (bigCommerceApiUrl this +:+ "/stores/" +:+ storeHash this +:+ path)
      (api_options this opts).
Proof.
  unfold api_ready, api. intros H.
  rewrite <- !negb_andb, H. reflexivity.
Qed.

Lemma sampleDataApi_not_ready this path opts t :
  sampleDataApi_ready this = false ->
  sampleDataApi transport this path opts t
  = (Threw (Error "sampleDataApiUrl, storeHash, and accessToken are required to make API requests"), t).
Proof.
  unfold sampleDataApi_ready, sampleDataApi. intros H.
  rewrite <- !negb_andb, H. reflexivity.
Qed.

Lemma sampleDataApi_is_fetch this path opts :
  sampleDataApi_ready this = true ->
  sampleDataApi transport this path opts
  = fetch transport
      (sampleDataApiUrl this +:+ "/stores/" +:+ storeHash this +:+ path)
      (sampleDataApi_options this opts).
Proof.
  unfold sampleDataApi_ready, sampleDataApi. intros H.
  rewrite <- !negb_andb, H. reflexivity.
Qed.

End Steps.

(** Run a method up to the answer of its request: the guard passes, [H]
    says what the transport answers. *)
Ltac step_fetch H :=
  unfold bind;
  rewrite ?api_is_fetch, ?sampleDataApi_is_fetch, ?auth_is_fetch by assumption;
  rewrite (fetch_resolved _ _ _ _ _ (H _ _)).

Lemma ready_of_configured ua cfg :
  api_ready (constructor ua cfg) = api_configured cfg
  /\ sampleDataApi_ready (constructor ua cfg) = sampleDataApi_configured cfg
  /\ auth_ready (constructor ua cfg) = auth_configured cfg.
Proof. split; [|split]; reflexivity. Qed.

(** ** Required credentials *)

(** C1. A call of [api], [sampleDataApi] or [auth] on a client whose
    configuration lacks one of the credentials the call requires (the field
    is omitted or empty) throws the call's configuration error and leaves
    the trace as it was: no request reaches the transport. *)
Theorem C1_incomplete_credentials_throw_before_fetch
    (transport : trace -> string -> RequestInit -> fetch_result)
    (ua : string) (cfg : HttpsConfig.t) (path : string) (opts : RequestInit)
    (t : trace) :
  (api_configured cfg = false ->
   api transport (constructor ua cfg) path opts t
   = (Threw (Error "bigCommerceApiUrl, storeHash, and accessToken are required to make API requests"), t))
  /\ (sampleDataApi_configured cfg = false ->
      sampleDataApi transport (constructor ua cfg) path opts t
      = (Threw (Error "sampleDataApiUrl, storeHash, and accessToken are required to make API requests"), t))
  /\ (auth_configured cfg = false ->
      auth transport (constructor ua cfg) path opts t
      = (Threw (Error "bigCommerceAuthUrl is required to make API requests"), t)).
Proof.
  destruct (ready_of_configured ua cfg) as (Ha & Hs & Hd).
  split; [|split]; intros H.
  - apply api_not_ready. congruence.
  - apply sampleDataApi_not_ready. congruence.
  - apply auth_not_ready. congruence.
Qed.

Lemma C1_witness :
  let t0 := [ConsoleWarn (chalk_yellow "starting")] in
  fetches (snd (api (Sample.always Sample.server_error)
                  (constructor Sample.agent Sample.auth_only) "/v2/store" no_opts t0))
  = []
  /\ fst (sampleDataApi (Sample.always Sample.server_error)
            (constructor Sample.agent Sample.auth_only) "/v3/channels/catalyst" no_opts t0)
     = Threw (Error "sampleDataApiUrl, storeHash, and accessToken are required to make API requests")
  /\ fst (auth (Sample.always Sample.server_error)
            (constructor Sample.agent Sample.nothing) "/device/token" no_opts t0)
     = Threw (Error "bigCommerceAuthUrl is required to make API requests").
Proof.
  intros t0. split; [|split].
  - destruct (C1_incomplete_credentials_throw_before_fetch
                (Sample.always Sample.server_error) Sample.agent
                Sample.auth_only "/v2/store" no_opts t0) as (H & _ & _).
    rewrite H; reflexivity.
  - destruct (C1_incomplete_credentials_throw_before_fetch
                (Sample.always Sample.server_error) Sample.agent
                Sample.auth_only "/v3/channels/catalyst" no_opts t0) as (_ & H & _).
    rewrite H; reflexivity.
  - destruct (C1_incomplete_credentials_throw_before_fetch
                (Sample.always Sample.server_error) Sample.agent
                Sample.nothing "/device/token" no_opts t0) as (_ & _ & H).
    rewrite H; reflexivity.
Defined.

(** ** Request URLs *)

(** C8. [api] and [sampleDataApi] request the base URL followed by
    ["/stores/"], the store hash and the path; [auth] requests its base URL
    followed by the path. In each case that is the one request issued. *)
Theorem C8_request_urls
    (transport : trace -> string -> RequestInit -> fetch_result)
    (this : Https) (path : string) (opts : RequestInit) (t : trace) :
  (api_ready this = true ->
   exists init,
     snd (api transport this path opts t)
     = t ++ [Fetch (bigCommerceApiUrl this +:+ "/stores/" +:+ storeHash this +:+ path) init])
  /\ (sampleDataApi_ready this = true ->
      exists init,
        snd (sampleDataApi transport this path opts t)
        = t ++ [Fetch (sampleDataApiUrl this +:+ "/stores/" +:+ storeHash this +:+ path) init])
  /\ (auth_ready this = true ->
      exists init,
        snd (auth transport this path opts t)
        = t ++ [Fetch (bigCommerceAuthUrl this +:+ path) init]).
Proof.
  split; [|split]; intros H.
  - exists (api_options this opts).
    rewrite api_is_fetch by exact H. apply fetch_logged.
  - exists (sampleDataApi_options this opts).
    rewrite sampleDataApi_is_fetch by exact H. apply fetch_logged.
  - exists (auth_options this opts).
    rewrite auth_is_fetch by exact H. apply fetch_logged.
Qed.

Lemma C8_witness :
  (exists init,
     snd (api (Sample.always Sample.server_error) Sample.client "/v2/store" no_opts [])
     = [Fetch "https://api.example/stores/abc123/v2/store" init])
  /\ (exists init,
        snd (sampleDataApi (Sample.always Sample.server_error) Sample.client
               "/v3/channels/catalyst" no_opts [])
        = [Fetch "https://sample.example/stores/abc123/v3/channels/catalyst" init])
  /\ (exists init,
        snd (auth (Sample.always Sample.server_error) Sample.client
               "/device/token" no_opts [])
        = [Fetch "https://login.example/device/token" init]).
Proof.
  destruct (C8_request_urls (Sample.always Sample.server_error) Sample.client
              "/v2/store" no_opts []) as (Ha & _ & _).
  destruct (C8_request_urls (Sample.always Sample.server_error) Sample.client
              "/v3/channels/catalyst" no_opts []) as (_ & Hs & _).
  destruct (C8_request_urls (Sample.always Sample.server_error) Sample.client
              "/device/token" no_opts []) as (_ & _ & Hd).
  split; [|split].
  - apply Ha. reflexivity.
  - apply Hs. reflexivity.
  - apply Hd. reflexivity.
Defined.

(** ** The constructor *)

Lemma default_omit_empty (o : option string) :
  default "" (omit_empty o) = default "" o.
Proof. destruct o as [[|c s]|]; reflexivity. Qed.

Lemma supplied_empty (o : option string) :
  o = Some "" \/ o = None -> supplied o = false.
Proof. intros [-> | ->]; reflexivity. Qed.

(** C9. The constructor stores a string in each of the five credential
    fields: the configured value, or the empty string for an omitted one.
    A configuration that gives empty strings builds the same instance as
    the one that omits those fields, and a call that requires a credential
    given as the empty string throws before any request, as it does when
    the credential is omitted. *)
Theorem C9_constructor_defaults_to_empty_strings
    (transport : trace -> string -> RequestInit -> fetch_result)
    (ua : string) (cfg : HttpsConfig.t) (path : string) (opts : RequestInit)
    (t : trace) :
  let this := constructor ua cfg in
  [bigCommerceApiUrl this; bigCommerceAuthUrl this; sampleDataApiUrl this;
   storeHash this; accessToken this]
  = (fun o => match o with Some s => s | None => "" end)
      <$> [HttpsConfig.bigCommerceApiUrl cfg; HttpsConfig.bigCommerceAuthUrl cfg;
           HttpsConfig.sampleDataApiUrl cfg; HttpsConfig.storeHash cfg;
           HttpsConfig.accessToken cfg]
  /\ constructor ua (omit_empties cfg) = this
  /\ (HttpsConfig.bigCommerceAuthUrl cfg = Some ""
      \/ HttpsConfig.bigCommerceAuthUrl cfg = None ->
      auth transport this path opts t
      = (Threw (Error "bigCommerceAuthUrl is required to make API requests"), t))
  /\ ((HttpsConfig.bigCommerceApiUrl cfg = Some ""
       \/ HttpsConfig.bigCommerceApiUrl cfg = None)
      \/ (HttpsConfig.storeHash cfg = Some ""
          \/ HttpsConfig.storeHash cfg = None)
      \/ (HttpsConfig.accessToken cfg = Some ""
          \/ HttpsConfig.accessToken cfg = None) ->
      api transport this path opts t
      = (Threw (Error "bigCommerceApiUrl, storeHash, and accessToken are required to make API requests"), t))
  /\ ((HttpsConfig.sampleDataApiUrl cfg = Some ""
       \/ HttpsConfig.sampleDataApiUrl cfg = None)
      \/ (HttpsConfig.storeHash cfg = Some ""
          \/ HttpsConfig.storeHash cfg = None)
      \/ (HttpsConfig.accessToken cfg = Some ""
          \/ HttpsConfig.accessToken cfg = None) ->
      sampleDataApi transport this path opts t
      = (Threw (Error "sampleDataApiUrl, storeHash, and accessToken are required to make API requests"), t)).
Proof.
  intros this; subst this. split; [|split; [|split; [|split]]].
  - reflexivity.
  - unfold constructor, omit_empties; cbn [HttpsConfig.bigCommerceApiUrl
      HttpsConfig.bigCommerceAuthUrl HttpsConfig.sampleDataApiUrl
      HttpsConfig.storeHash HttpsConfig.accessToken].
    now rewrite !default_omit_empty.
  - intros H. apply auth_not_ready.
    destruct (ready_of_configured ua cfg) as (_ & _ & ->).
    now apply supplied_empty.
  - intros H. apply api_not_ready.
    destruct (ready_of_configured ua cfg) as (-> & _ & _).
    unfold api_configured.
    destruct H as [H | [H | H]]; apply supplied_empty in H; rewrite H;
      rewrite ?andb_false_r; reflexivity.
  - intros H. apply sampleDataApi_not_ready.
    destruct (ready_of_configured ua cfg) as (_ & -> & _).
    unfold sampleDataApi_configured.
    destruct H as [H | [H | H]]; apply supplied_empty in H; rewrite H;
      rewrite ?andb_false_r; reflexivity.
Qed.

Lemma C9_witness :
  snd (auth (Sample.always Sample.server_error)
         (constructor Sample.agent Sample.empties) "/device/token" no_opts [])
  = []
  /\ fst (api (Sample.always Sample.server_error)
            (constructor Sample.agent Sample.empties) "/v2/store" no_opts [])
     = Threw (Error "bigCommerceApiUrl, storeHash, and accessToken are required to make API requests")
  /\ fst (sampleDataApi (Sample.always Sample.server_error)
            (constructor Sample.agent Sample.empties) "/v3/channels/catalyst"
            no_opts [])
     = Threw (Error "sampleDataApiUrl, storeHash, and accessToken are required to make API requests").
Proof.
  destruct (C9_constructor_defaults_to_empty_strings
              (Sample.always Sample.server_error) Sample.agent Sample.empties
              "/device/token" no_opts []) as (_ & _ & Hd & _ & _).
  destruct (C9_constructor_defaults_to_empty_strings
              (Sample.always Sample.server_error) Sample.agent Sample.empties
              "/v2/store" no_opts []) as (_ & _ & _ & Ha & _).
  destruct (C9_constructor_defaults_to_empty_strings
              (Sample.always Sample.server_error) Sample.agent Sample.empties
              "/v3/channels/catalyst" no_opts []) as (_ & _ & _ & _ & Hs).
  split; [|split].
  - rewrite Hd; [reflexivity | left; reflexivity].
  - rewrite Ha; [reflexivity | right; left; left; reflexivity].
  - rewrite Hs; [reflexivity | right; left; left; reflexivity].
Defined.

(** ** Fixed headers *)

(** C10. Whatever headers the caller supplies, the headers of the request
    that [auth], [api] or [sampleDataApi] issues map [Accept] to
    [application/json] and [User-Agent] to the client's user agent; [api]
    and [sampleDataApi] map [X-Auth-Token] to the access token; [auth] and
    [sampleDataApi] map [Content-Type] to [application/json]. *)
Theorem C10_fixed_headers_win
    (transport : trace -> string -> RequestInit -> fetch_result)
    (this : Https) (path : string) (opts : RequestInit) (t : trace) :
  (auth_ready this = true ->
   exists input init,
     snd (auth transport this path opts t) = t ++ [Fetch input init]
     /\ header_of init "Accept" = Some "application/json"
     /\ header_of init "User-Agent" = Some (userAgent this)
     /\ header_of init "Content-Type" = Some "application/json")
  /\ (api_ready this = true ->
      exists input init,
        snd (api transport this path opts t) = t ++ [Fetch input init]
        /\ header_of init "Accept" = Some "application/json"
        /\ header_of init "User-Agent" = Some (userAgent this)
        /\ header_of init "X-Auth-Token" = Some (accessToken this))
  /\ (sampleDataApi_ready this = true ->
      exists input init,
        snd (sampleDataApi transport this path opts t) = t ++ [Fetch input init]
        /\ header_of init "Accept" = Some "application/json"
        /\ header_of init "User-Agent" = Some (userAgent this)
        /\ header_of init "X-Auth-Token" = Some (accessToken this)
        /\ header_of init "Content-Type" = Some "application/json").
Proof.
  split; [|split]; intros H.
  - eexists _, (auth_options this opts).
    rewrite auth_is_fetch by exact H.
    split; [apply fetch_logged|].
    unfold header_of, auth_options; cbn [headers].
    split; [|split]; now simplify_map_eq.
  - eexists _, (api_options this opts).
    rewrite api_is_fetch by exact H.
    split; [apply fetch_logged|].
    unfold header_of, api_options; cbn [headers].
    split; [|split]; now simplify_map_eq.
  - eexists _, (sampleDataApi_options this opts).
    rewrite sampleDataApi_is_fetch by exact H.
    split; [apply fetch_logged|].
    unfold header_of, sampleDataApi_options; cbn [headers].
    split; [|split; [|split]]; now simplify_map_eq.
Qed.

Lemma C10_witness :
  (exists input init,
     snd (auth (Sample.always Sample.server_error) Sample.client "/device/token"
            Sample.hostile_opts []) = [Fetch input init]
     /\ header_of init "Accept" = Some "application/json"
     /\ header_of init "User-Agent" = Some "create-catalyst"
     /\ header_of init "Content-Type" = Some "application/json")
  /\ (exists input init,
        snd (api (Sample.always Sample.server_error) Sample.client "/v2/store"
               Sample.hostile_opts []) = [Fetch input init]
        /\ header_of init "Accept" = Some "application/json"
        /\ header_of init "User-Agent" = Some "create-catalyst"
        /\ header_of init "X-Auth-Token" = Some "secret")
  /\ (exists input init,
        snd (sampleDataApi (Sample.always Sample.server_error) Sample.client
               "/v3/channels/catalyst" Sample.hostile_opts []) = [Fetch input init]
        /\ header_of init "Accept" = Some "application/json"
        /\ header_of init "User-Agent" = Some "create-catalyst"
        /\ header_of init "X-Auth-Token" = Some "secret"
        /\ header_of init "Content-Type" = Some "application/json").
Proof.
  destruct (C10_fixed_headers_win (Sample.always Sample.server_error)
              Sample.client "/device/token" Sample.hostile_opts []) as (Hd & _ & _).
  destruct (C10_fixed_headers_win (Sample.always Sample.server_error)
              Sample.client "/v2/store" Sample.hostile_opts []) as (_ & Ha & _).
  destruct (C10_fixed_headers_win (Sample.always Sample.server_error)
              Sample.client "/v3/channels/catalyst" Sample.hostile_opts [])
    as (_ & _ & Hs).
  split; [|split].
  - apply Hd. reflexivity.
  - apply Ha. reflexivity.
  - apply Hs. reflexivity.
Defined.

(** ** Endpoint methods on a failed response *)

Section Endpoints.

Context (is_url : string -> bool).
Context (transport : trace -> string -> RequestInit -> fetch_result).

Lemma getDeviceCode_not_ok this t r :
  auth_ready this = true -> answers transport t r -> ok r = false ->
  exists init,
    getDeviceCode is_url transport this t
    = (Exited 1,
       t ++ [Fetch (bigCommerceAuthUrl this +:+ "/device/token") init;
             ConsoleError (chalk_red (failure_report "POST /device/token" r))]).
Proof.
  intros Hready H Hok. eexists. unfold getDeviceCode. step_fetch H.
  rewrite Hok. cbn [negb]. unfold console_error, emit, process_exit.
  rewrite <- app_assoc. reflexivity.
Qed.

Lemma storeInformation_not_ok this t r :
  api_ready this = true -> answers transport t r -> ok r = false ->
  exists init,
    storeInformation is_url transport this t
    = (Exited 1,
       t ++ [Fetch (bigCommerceApiUrl this +:+ "/stores/" +:+ storeHash this
                      +:+ "/v2/store") init;
             ConsoleError (chalk_red (failure_report "GET /v2/store" r))]).
Proof.
  intros Hready H Hok. eexists. unfold storeInformation. step_fetch H.
  rewrite Hok. cbn [negb]. unfold console_error, emit, process_exit.
  rewrite <- app_assoc. reflexivity.
Qed.

Lemma channels_not_ok this query t r :
  api_ready this = true -> answers transport t r -> ok r = false ->
  exists init,
    channels is_url transport this query t
    = (Exited 1,
       t ++ [Fetch (bigCommerceApiUrl this +:+ "/stores/" +:+ storeHash this
                      +:+ "/v3/channels" +:+ default "" query) init;
             ConsoleError (chalk_red (failure_report "GET /v3/channels" r))]).
Proof.
  intros Hready H Hok. eexists. unfold channels. step_fetch H.
  rewrite Hok. cbn [negb]. unfold console_error, emit, process_exit.
  rewrite <- app_assoc. reflexivity.
Qed.

Lemma storefrontToken_not_ok this t r :
  api_ready this = true -> answers transport t r -> ok r = false ->
  exists init,
    storefrontToken is_url transport this t
    = (Exited 1,
       t ++ [Fetch (bigCommerceApiUrl this +:+ "/stores/" +:+ storeHash this
                      +:+ "/v3/storefront/api-token") init;
             ConsoleError
               (chalk_red (failure_report "POST /v3/storefront/api-token" r))]).
Proof.
  intros Hready H Hok. eexists. unfold storefrontToken. step_fetch H.
  rewrite Hok. cbn [negb]. unfold console_error, emit, process_exit.
  rewrite <- app_assoc. reflexivity.
Qed.

Lemma checkEligibility_not_ok this t r :
  sampleDataApi_ready this = true -> answers transport t r -> ok r = false ->
  exists init,
    checkEligibility is_url transport this t
    = (Exited 1,
       t ++ [Fetch (sampleDataApiUrl this +:+ "/stores/" +:+ storeHash this
                      +:+ "/v3/channels/catalyst/eligibility") init;
             ConsoleError
               (chalk_red
                  (failure_report "GET /v3/channels/catalyst/eligibility" r))]).
Proof.
  intros Hready H Hok. eexists. unfold checkEligibility. step_fetch H.
  rewrite Hok. cbn [negb]. unfold console_error, emit, process_exit.
  rewrite <- app_assoc. reflexivity.
Qed.

Lemma createChannel_not_ok this name t r :
  sampleDataApi_ready this = true -> answers transport t r -> ok r = false ->
  exists init,
    createChannel is_url transport this name t
    = (Exited 1,
       t ++ [Fetch (sampleDataApiUrl this +:+ "/stores/" +:+ storeHash this
                      +:+ "/v3/channels/catalyst") init;
             ConsoleError
               (chalk_red (failure_report "POST /v3/channels/catalyst" r))]).
Proof.
  intros Hready H Hok. eexists. unfold createChannel. step_fetch H.
  rewrite Hok. cbn [negb]. unfold console_error, emit, process_exit.
  rewrite <- app_assoc. reflexivity.
Qed.




End Endpoints.

(** ** Failed responses *)

(** C3, as stated, fails: a 403 answer to [channels] is not handed to the
    caller as a condition to classify. The client ends the process itself. *)
Lemma C3_counterexample :
  ok Sample.forbidden = false
  /\ fst (channels Sample.is_url (Sample.always Sample.forbidden)
            Sample.client None []) = Exited 1
  /\ ~ surfaced_to_caller
         (fst (channels Sample.is_url (Sample.always Sample.forbidden)
                 Sample.client None [])).
Proof.
  split; [reflexivity|]. split; [vm_compute; reflexivity|].
  intros [e He]. vm_compute in He. discriminate He.
Qed.

(** C3, amended. On a response that is not 2xx, each of [getDeviceCode],
    [storeInformation], [channels], [storefrontToken], [checkEligibility]
    and [createChannel] decides by itself that the failure is fatal: after
    its one request it writes to the error console a text that names the
    method and endpoint and carries the status and the status text, and
    exits the process with code 1. Nothing is thrown to the caller. *)
Theorem C3_failed_calls_report_and_exit
    (is_url : string -> bool)
    (transport : trace -> string -> RequestInit -> fetch_result)
    (this : Https) (query : option string) (channelName : string)
    (t : trace) (r : response) :
  answers transport t r -> ok r = false ->
  (auth_ready this = true ->
   exists init,
     getDeviceCode is_url transport this t
     = (Exited 1,
        t ++ [Fetch (bigCommerceAuthUrl this +:+ "/device/token") init;
              ConsoleError (chalk_red (failure_report "POST /device/token" r))]))
  /\ (api_ready this = true ->
      (exists init,
         storeInformation is_url transport this t
         = (Exited 1,
            t ++ [Fetch (bigCommerceApiUrl this +:+ "/stores/"
                           +:+ storeHash this +:+ "/v2/store") init;
                  ConsoleError (chalk_red (failure_report "GET /v2/store" r))]))
      /\ (exists init,
            channels is_url transport this query t
            = (Exited 1,
               t ++ [Fetch (bigCommerceApiUrl this +:+ "/stores/"
                              +:+ storeHash this +:+ "/v3/channels"
                              +:+ default "" query) init;
                     ConsoleError
                       (chalk_red (failure_report "GET /v3/channels" r))]))
      /\ (exists init,
            storefrontToken is_url transport this t
            = (Exited 1,
               t ++ [Fetch (bigCommerceApiUrl this +:+ "/stores/"
                              +:+ storeHash this +:+ "/v3/storefront/api-token")
                       init;
                     ConsoleError
                       (chalk_red
                          (failure_report "POST /v3/storefront/api-token" r))])))
  /\ (sampleDataApi_ready this = true ->
      (exists init,
         checkEligibility is_url transport this t
         = (Exited 1,
            t ++ [Fetch (sampleDataApiUrl this +:+ "/stores/"
                           +:+ storeHash this
                           +:+ "/v3/channels/catalyst/eligibility") init;
                  ConsoleError
                    (chalk_red
                       (failure_report
                          "GET /v3/channels/catalyst/eligibility" r))]))
      /\ (exists init,
            createChannel is_url transport this channelName t
            = (Exited 1,
               t ++ [Fetch (sampleDataApiUrl this +:+ "/stores/"
                              +:+ storeHash this +:+ "/v3/channels/catalyst")
                       init;
                     ConsoleError
                       (chalk_red
                          (failure_report "POST /v3/channels/catalyst" r))]))).
Proof.
  intros H Hok. split; [|split].
  - intros Hready. now apply getDeviceCode_not_ok.
  - intros Hready. split; [|split].
    + now apply storeInformation_not_ok.
    + now apply channels_not_ok.
    + now apply storefrontToken_not_ok.
  - intros Hready. split.
    + now apply checkEligibility_not_ok.
    + now apply createChannel_not_ok.
Qed.

Lemma C3_witness :
  exists init,
    channels Sample.is_url (Sample.always Sample.forbidden) Sample.client
      (Some "?available=true") []
    = (Exited 1,
       [Fetch "https://api.example/stores/abc123/v3/channels?available=true" init;
        ConsoleError
          (chalk_red (failure_report "GET /v3/channels" Sample.forbidden))]).
Proof.
  destruct (C3_failed_calls_report_and_exit Sample.is_url
              (Sample.always Sample.forbidden) Sample.client
              (Some "?available=true") "demo" [] Sample.forbidden)
    as (_ & Ha & _).
  - intros input init. reflexivity.
  - reflexivity.
  - destruct Ha as (_ & Hc & _); [reflexivity|]. exact Hc.
Defined.

(** ** One poll attempt *)



(** ** The best-effort step *)






(** ** Calls that return a validated payload *)

Lemma fetches_app (a b : trace) : fetches (a ++ b) = fetches a ++ fetches b.
Proof. unfold fetches. apply omap_app. Qed.

Section Accepted.

Context (is_url : string -> bool).
Context (transport : trace -> string -> RequestInit -> fetch_result).






End Accepted.





(** ** The polling loop *)

Lemma ceil_div_spec (e i : Z) :
  0 < i -> i * (ceil_div e i - 1) < e <= i * ceil_div e i.
Proof.
  intros Hi. unfold ceil_div.
  pose proof (Z.div_mod (- e) i) as Hdm.
  pose proof (Z.mod_pos_bound (- e) i Hi) as Hb.
  nia.
Qed.

Lemma floor_le_ceil_div (e i : Z) : 0 < i -> e / i <= ceil_div e i.
Proof.
  intros Hi.
  pose proof (ceil_div_spec e i Hi) as Hc.
  pose proof (Z.div_mod e i) as Hdm.
  pose proof (Z.mod_pos_bound e i Hi) as Hb.
  nia.
Qed.

Lemma fetches_poll_rounds (n : nat) this code :
  length (fetches (poll_rounds n this code)) = n.
Proof.
  induction n as [|n IH]; [reflexivity|].
  cbn [poll_rounds]. rewrite fetches_app, length_app, IH. reflexivity.
Qed.

Lemma slept_poll_rounds (n : nat) this code :
  slept (poll_rounds n this code) = Z.of_nat n * pollIntervalSeconds code.
Proof.
  induction n as [|n IH]; [reflexivity|].
  cbn [poll_rounds poll_round app slept]. rewrite IH. lia.
Qed.

Section Polling.

Context (is_url : string -> bool).
Context (transport : trace -> string -> RequestInit -> fetch_result).
Context (this : Https) (code : DeviceCode).
Hypothesis Hready : auth_ready this = true.
Hypothesis Hpending : always_pending transport.

(** A pending attempt before the deadline costs one round and one unit of
    fuel. *)
Lemma poll_round_pending (fuel : nat) (elapsed : Z) (t : trace) :
  elapsed + pollIntervalSeconds code <= expiresInSeconds code ->
  pollForToken_from is_url transport (S fuel) this code elapsed t
  = pollForToken_from is_url transport fuel this code
      (elapsed + pollIntervalSeconds code) (t ++ poll_round this code).
Proof.
  intros Hle. cbn [pollForToken_from].
  apply Z.ltb_ge in Hle. rewrite Hle.
  unfold bind at 1. unfold emit at 1. unfold bind at 1. unfold try_catch.
  unfold bind at 1.
  unfold checkDeviceCode, bind. rewrite auth_is_fetch by exact Hready.
  unfold fetch.
  destruct (Hpending (t ++ [Sleep (pollIntervalSeconds code)])
              (bigCommerceAuthUrl this +:+ "/device/token")
              (auth_options this
                 {| method := None; headers := None;
                    body := Some (JSON_stringify
                                    (JObj [("device_code", JStr (deviceCode code));
                                           ("client_id", JStr DEVICE_OAUTH_CLIENT_ID)])) |}))
    as (r & -> & Hst).
  apply Z.eqb_neq in Hst. rewrite Hst. cbn [negb].
  unfold throw. cbn [is_pending String.eqb]. unfold ret.
  unfold poll_round. rewrite <- app_assoc. reflexivity.
Qed.

Lemma poll_times_out (n : nat) :
  0 < pollIntervalSeconds code ->
  forall (fuel : nat) (elapsed : Z) (t : trace),
    (n < fuel)%nat ->
    (n = 0%nat
     \/ elapsed + Z.of_nat n * pollIntervalSeconds code <= expiresInSeconds code) ->
    expiresInSeconds code
    < elapsed + (Z.of_nat n + 1) * pollIntervalSeconds code ->
    pollForToken_from is_url transport fuel this code elapsed t
    = (Threw AuthTimeoutError, t ++ poll_rounds n this code).
Proof.
  intros Hi. induction n as [|n IH]; intros fuel elapsed t Hfuel Hin Hout.
  - destruct fuel as [|fuel]; [lia|]. cbn [pollForToken_from].
    replace (expiresInSeconds code <? elapsed + pollIntervalSeconds code)
      with true by (symmetry; apply Z.ltb_lt; lia).
    cbn [poll_rounds]. now rewrite app_nil_r.
  - destruct fuel as [|fuel]; [lia|].
    destruct Hin as [Hin | Hin]; [discriminate|].
    rewrite poll_round_pending by lia.
    rewrite IH; [| lia | right; lia | lia].
    cbn [poll_rounds]. now rewrite app_assoc.
Qed.

End Polling.

(** C2. With a positive poll interval and a transport that answers every
    attempt with a status other than 200, the polling loop ends, for any
    sufficient fuel, by throwing [AuthTimeoutError] after a number of rounds
    (one sleep of the interval, then one request) that is at most the
    ceiling of expiry over interval for an expiry that is not negative,
    and zero for a negative one; the time slept when the last attempt is
    made does not exceed the expiry, and nothing is requested after it. *)
Theorem C2_polling_stops_at_the_deadline
    (is_url : string -> bool)
    (transport : trace -> string -> RequestInit -> fetch_result)
    (this : Https) (code : DeviceCode) (t : trace) :
  0 < pollIntervalSeconds code ->
  auth_ready this = true ->
  always_pending transport ->
  exists attempts : nat,
    (forall fuel, (attempts < fuel)%nat ->
       pollForToken is_url transport fuel this code t
       = (Threw AuthTimeoutError, t ++ poll_rounds attempts this code))
    /\ length (fetches (poll_rounds attempts this code)) = attempts
    /\ (0 <= expiresInSeconds code ->
        Z.of_nat attempts
        <= ceil_div (expiresInSeconds code) (pollIntervalSeconds code))
    /\ (expiresInSeconds code < 0 -> attempts = 0%nat)
    /\ (attempts = 0%nat
        \/ slept (poll_rounds attempts this code) <= expiresInSeconds code).
Proof.
  intros Hi Hready Hpending.
  set (E := expiresInSeconds code). set (I := pollIntervalSeconds code).
  pose proof (Z.div_mod E I) as Hdm.
  pose proof (Z.mod_pos_bound E I Hi) as Hb.
  pose proof (floor_le_ceil_div E I Hi) as Hceil.
  exists (Z.to_nat (E / I)).
  split; [|split; [|split; [|split]]].
  - intros fuel Hfuel. unfold pollForToken.
    apply poll_times_out; try assumption; fold E I.
    + destruct (Z_lt_le_dec E 0) as [Hneg | Hpos].
      * left. assert (E / I < 0) by (apply Z.div_lt_upper_bound; lia). lia.
      * right. assert (0 <= E / I) by (apply Z.div_pos; lia). nia.
    + destruct (Z_lt_le_dec E 0) as [Hneg | Hpos].
      * assert (E / I < 0) by (apply Z.div_lt_upper_bound; lia).
        replace (Z.of_nat (Z.to_nat (E / I))) with 0 by lia. lia.
      * assert (0 <= E / I) by (apply Z.div_pos; lia).
        rewrite Z2Nat.id by assumption. nia.
  - apply fetches_poll_rounds.
  - intros Hpos. assert (0 <= E / I) by (apply Z.div_pos; lia).
    rewrite Z2Nat.id by assumption. exact Hceil.
  - intros Hneg. assert (E / I < 0) by (apply Z.div_lt_upper_bound; lia). lia.
  - rewrite slept_poll_rounds. fold I E.
    destruct (Z_lt_le_dec E 0) as [Hneg | Hpos].
    + left. assert (E / I < 0) by (apply Z.div_lt_upper_bound; lia). lia.
    + right. assert (0 <= E / I) by (apply Z.div_pos; lia).
      rewrite Z2Nat.id by assumption. nia.
Qed.

Lemma C2_witness :
  exists attempts : nat,
    pollForToken Sample.is_url (Sample.always Sample.pending) 100
      Sample.client Sample.device []
    = (Threw AuthTimeoutError, poll_rounds attempts Sample.client Sample.device)
    /\ Z.of_nat attempts <= ceil_div 60 5.
Proof.
  destruct (C2_polling_stops_at_the_deadline Sample.is_url
              (Sample.always Sample.pending) Sample.client Sample.device [])
    as (attempts & Hrun & Hcount & Hbound & _ & _).
  - reflexivity.
  - reflexivity.
  - intros t input init. exists Sample.pending. split; [reflexivity | discriminate].
  - exists attempts. split.
    + destruct (Nat.lt_ge_cases attempts 100) as [Hlt | Hge].
      * exact (Hrun 100%nat Hlt).
      * exfalso. specialize (Hbound ltac:(discriminate)).
        change (ceil_div (expiresInSeconds Sample.device)
                  (pollIntervalSeconds Sample.device)) with 12 in Hbound.
        lia.
    + apply Hbound. discriminate.
Defined.

(** * Further properties of the client *)

(** ** Every method is a row of the table *)

Section Table.

Context (is_url : string -> bool).
Context (transport : trace -> string -> RequestInit -> fetch_result).

Ltac table_defs :=
  cbn [call surface_of ready guard_message url_of options path_of opts_of
       schema_of label_of accepts refusal request_of].

Ltac guard_fails H :=
  unfold bind;
  rewrite ?api_not_ready, ?sampleDataApi_not_ready, ?auth_not_ready by exact H;
  reflexivity.

Ltac guard_passes H :=
  unfold bind;
  rewrite ?api_is_fetch, ?sampleDataApi_is_fetch, ?auth_is_fetch by exact H;
  unfold fetch.

Ltac read_payload r :=
  unfold validated, json_of, parse;
  destruct (payload r) as [d|]; [|reflexivity];
  cbv beta iota delta [ret];
  match goal with
  | |- context [safe_parse ?u ?s d] => destruct (safe_parse u s d); reflexivity
  end.

Ltac report_and_exit :=
  unfold console_error, emit, process_exit, failure_report;
  rewrite <- app_assoc; reflexivity.

Lemma call_behaviour (this : Https) (ep : endpoint) (t : trace) :
  call is_url transport this ep t = behaviour is_url transport this ep t.
Proof.
  unfold behaviour.
  destruct ep; table_defs;
    match goal with
    | |- context [if ?b then _ else _] => destruct b eqn:Hready
    end;
    try
      (unfold getDeviceCode, checkDeviceCode, storeInformation, channels,
         storefrontToken, checkEligibility, createChannel;
       guard_fails Hready);
    unfold getDeviceCode, checkDeviceCode, storeInformation, channels,
      storefrontToken, checkEligibility, createChannel;
    guard_passes Hready;
    match goal with
    | |- context [transport ?a ?b ?c] => destruct (transport a b c) as [r|]
    end; cbv beta iota; try reflexivity;
    match goal with
    | |- context [ok ?x] =>
        destruct (ok x); cbn [negb];
        first [read_payload x | report_and_exit | reflexivity]
    | |- context [status ?x =? 200] =>
        destruct (status x =? 200); cbn [negb];
        first [read_payload x | reflexivity]
    end.
Qed.

Lemma createChannelMenus_behaviour (this : Https) (channelId : Z) (t : trace) :
  createChannelMenus transport this channelId t
  = if api_ready this then
      match transport t
              (bigCommerceApiUrl this +:+ "/stores/" +:+ storeHash this
                 +:+ "/v3/channels/" +:+ pretty channelId +:+ "/channel-menus")
              (api_options this
                 {| method := Some "POST";
                    headers := Some {[ "Content-Type" := "application/json" ]};
                    body := Some (JSON_stringify
                                    (JObj [("bigcommerce_protected_app_sections",
                                            JArr (JStr <$> CHANNEL_MENU_SECTIONS))])) |})
      with
      | Rejected => (Threw FetchFailed, t ++ [menus_request this channelId])
      | Resolved r =>
          if ok r then (Returned tt, t ++ [menus_request this channelId])
          else (Returned tt,
                t ++ [menus_request this channelId;
                      ConsoleWarn (chalk_yellow (menus_warning r))])
      end
    else
      (Threw (Error (guard_message ViaApi)), t).
Proof.
  unfold createChannelMenus, menus_request.
  destruct (api_ready this) eqn:Hready; [|guard_fails Hready].
  guard_passes Hready.
  match goal with
  | |- context [transport ?a ?b ?c] => destruct (transport a b c) as [r|]
  end; [|reflexivity].
  cbv beta iota.
  destruct (ok r); cbn [negb]; [reflexivity|].
  unfold console_warn, emit, menus_warning. rewrite <- app_assoc. reflexivity.
Qed.

End Table.

(** ** The validator *)

Section Validator.

Context (is_url : string -> bool).

Lemma safe_parse_object shape props :
  safe_parse is_url (ZObject shape) (JObj props)
  = match parse_fields is_url props shape with
    | inl p => inl p
    | inr ys => inr (JObj ys)
    end.
Proof. reflexivity. Qed.

Lemma safe_parse_array item xs :
  safe_parse is_url (ZArray item) (JArr xs)
  = match parse_items is_url item 0%nat xs with
    | inl p => inl p
    | inr ys => inr (JArr ys)
    end.
Proof. reflexivity. Qed.

Lemma safe_parse_object_inv shape v w :
  safe_parse is_url (ZObject shape) v = inr w ->
  exists props ys,
    v = JObj props /\ w = JObj ys /\ parse_fields is_url props shape = inr ys.
Proof.
  destruct v as [ | | | | |props]; try discriminate.
  rewrite safe_parse_object.
  destruct (parse_fields is_url props shape) as [p|ys] eqn:E; [discriminate|].
  intros [= <-]. now exists props, ys.
Qed.

Lemma safe_parse_array_inv item v w :
  safe_parse is_url (ZArray item) v = inr w ->
  exists xs ys,
    v = JArr xs /\ w = JArr ys /\ parse_items is_url item 0%nat xs = inr ys.
Proof.
  destruct v as [ | | | |xs| ]; try discriminate.
  rewrite safe_parse_array.
  destruct (parse_items is_url item 0%nat xs) as [p|ys] eqn:E; [discriminate|].
  intros [= <-]. now exists xs, ys.
Qed.

(** The output of an object schema has the keys of the shape, in order. *)
Lemma parse_fields_keys props shape ys :
  parse_fields is_url props shape = inr ys -> ys.*1 = shape.*1.
Proof.
  revert ys. induction shape as [|[k sk] rest IH]; intros ys; cbn.
  - now intros [= <-].
  - destruct (get_prop k props) as [x|]; [|discriminate].
    destruct (safe_parse is_url sk x) as [p|y]; [discriminate|].
    destruct (parse_fields is_url props rest) as [p|ys'] eqn:E; [discriminate|].
    intros [= <-]. cbn. f_equal. now apply IH.
Qed.

(** A key of the shape that the input lacks is an issue. *)
Lemma parse_fields_missing props shape k :
  k ∈ shape.*1 -> get_prop k props = None ->
  exists p, parse_fields is_url props shape = inl p.
Proof.
  intros Hin Hnone. induction shape as [|[k' sk] rest IH]; cbn in *.
  - now apply elem_of_nil in Hin.
  - destruct (get_prop k' props) as [x|] eqn:Hk'; [|eauto].
    destruct (safe_parse is_url sk x) as [p|y]; [eauto|].
    apply elem_of_cons in Hin as [-> | Hin]; [congruence|].
    destruct (IH Hin) as [p ->]. eauto.
Qed.

(** Items are validated one by one, in order. *)
Lemma parse_items_each item i xs ys :
  parse_items is_url item i xs = inr ys ->
  Forall2 (fun x y => safe_parse is_url item x = inr y) xs ys.
Proof.
  revert i ys. induction xs as [|x rest IH]; intros i ys; cbn.
  - intros [= <-]. constructor.
  - destruct (safe_parse is_url item x) as [p|y] eqn:Ex; [discriminate|].
    destruct (parse_items is_url item (S i) rest) as [p|ys'] eqn:E;
      [discriminate|].
    intros [= <-]. constructor; [exact Ex | now apply (IH (S i))].
Qed.

Lemma parse_items_again item i j xs ys :
  (forall v w, safe_parse is_url item v = inr w ->
               safe_parse is_url item w = inr w) ->
  parse_items is_url item i xs = inr ys ->
  parse_items is_url item j ys = inr ys.
Proof.
  intros Hitem H. apply parse_items_each in H.
  revert j. induction H as [|x y xs ys Hxy _ IH]; intros j; cbn.
  - reflexivity.
  - rewrite (Hitem _ _ Hxy), IH. reflexivity.
Qed.

Lemma get_prop_first (ps : list (string * json)) k y :
  NoDup (ps.*1) -> (k, y) ∈ ps -> get_prop k ps = Some y.
Proof.
  induction ps as [|[k' y'] ps IH]; cbn; intros Hnd Hin.
  - now apply elem_of_nil in Hin.
  - apply NoDup_cons in Hnd as [Hk' Hnd].
    apply elem_of_cons in Hin as [[= -> ->] | Hin].
    + now rewrite String.eqb_refl.
    + destruct (String.eqb_spec k k') as [-> | Hne]; [|now apply IH].
      exfalso. apply Hk'. now apply (list_elem_of_fmap_2 fst ps (k', y)).
Qed.

Lemma parse_fields_again (full : list (string * json)) props shape ys :
  Forall (fun ks => forall v w, safe_parse is_url ks.2 v = inr w ->
                                safe_parse is_url ks.2 w = inr w) shape ->
  parse_fields is_url props shape = inr ys ->
  (forall k y, (k, y) ∈ ys -> get_prop k full = Some y) ->
  parse_fields is_url full shape = inr ys.
Proof.
  intros Hshape. revert ys.
  induction Hshape as [|[k sk] rest Hsk _ IH]; intros ys; cbn.
  - now intros [= <-].
  - destruct (get_prop k props) as [x|]; [|discriminate].
    destruct (safe_parse is_url sk x) as [p|y] eqn:Ex; [discriminate|].
    destruct (parse_fields is_url props rest) as [p|ys'] eqn:E; [discriminate|].
    intros [= <-] Hfull.
    rewrite (Hfull k y) by apply list_elem_of_here.
    cbn in Hsk. rewrite (Hsk _ _ Ex).
    rewrite (IH ys' eq_refl); [reflexivity|].
    intros k0 y0 Hin. apply Hfull. now apply list_elem_of_further.
Qed.

Lemma distinct_keys_object shape :
  distinct_keys (ZObject shape) = true ->
  NoDup (shape.*1) /\ Forall (fun ks => distinct_keys ks.2 = true) shape.
Proof.
  cbn [distinct_keys]. intros H. apply andb_prop in H as [Hnd Hall].
  split; [now apply bool_decide_eq_true in Hnd|].
  apply Forall_forall. intros [k sk] Hin.
  rewrite forallb_forall in Hall. apply (Hall (k, sk)).
  now apply list_elem_of_In.
Qed.

(** A validated value passes the same schema again, unchanged. *)
Lemma safe_parse_again (s : schema) :
  distinct_keys s = true ->
  forall v w, safe_parse is_url s v = inr w -> safe_parse is_url s w = inr w.
Proof.
  revert s. fix IH 1. intros s Hs v w.
  destruct s as [ |n| | | |item|shape].
  - destruct v; cbn; try discriminate. now intros [= <-].
  - destruct v as [ | | |x| | ]; cbn; try discriminate.
    destruct (n <=? String.length x)%nat eqn:E; [|discriminate].
    intros [= <-]. cbn. now rewrite E.
  - destruct v as [ | | |x| | ]; cbn; try discriminate.
    destruct (is_url x) eqn:E; [|discriminate].
    intros [= <-]. cbn. now rewrite E.
  - destruct v; cbn; try discriminate. now intros [= <-].
  - destruct v; cbn; try discriminate. now intros [= <-].
  - intros H. apply safe_parse_array_inv in H as (xs & ys & -> & -> & H).
    rewrite safe_parse_array.
    rewrite (parse_items_again item 0%nat 0%nat xs ys (IH item Hs) H).
    reflexivity.
  - intros H. apply safe_parse_object_inv in H as (props & ys & -> & -> & H).
    apply distinct_keys_object in Hs as [Hnd Hall].
    rewrite safe_parse_object.
    rewrite (parse_fields_again ys props shape ys); [reflexivity| |exact H|].
    + clear -IH Hall. revert shape Hall. fix IHs 1.
      intros [|[k sk] rest] Hall; constructor.
      * apply IH. now apply Forall_inv in Hall.
      * apply IHs. now apply Forall_inv_tail in Hall.
    + intros k y Hin. apply get_prop_first; [|exact Hin].
      now rewrite (parse_fields_keys props shape ys H).
Qed.

End Validator.

(** ** Guards, failures and exits of the endpoint methods *)

(** X1. A method called on a client that lacks a credential its request
    builder requires throws the builder's error; the trace is left as it
    was, so nothing is requested, printed or exited. *)
Theorem X1_unconfigured_methods_throw_before_any_request
    (is_url : string -> bool)
    (transport : trace -> string -> RequestInit -> fetch_result)
    (this : Https) (ep : endpoint) (channelId : Z) (t : trace) :
  (ready (surface_of ep) this = false ->
   call is_url transport this ep t
   = (Threw (Error (guard_message (surface_of ep))), t))
  /\ (api_ready this = false ->
      createChannelMenus transport this channelId t
      = (Threw (Error "bigCommerceApiUrl, storeHash, and accessToken are required to make API requests"), t)).
Proof.
  split; intros H.
  - rewrite call_behaviour. unfold behaviour. now rewrite H.
  - rewrite createChannelMenus_behaviour. now rewrite H.
Qed.

Lemma X1_witness :
  storeInformation Sample.is_url (Sample.always Sample.server_error)
    (constructor Sample.agent Sample.auth_only) []
  = (Threw (Error "bigCommerceApiUrl, storeHash, and accessToken are required to make API requests"), [])
  /\ createChannelMenus (Sample.always Sample.server_error)
       (constructor Sample.agent Sample.auth_only) 42 []
     = (Threw (Error "bigCommerceApiUrl, storeHash, and accessToken are required to make API requests"), []).
Proof.
  destruct (X1_unconfigured_methods_throw_before_any_request Sample.is_url
              (Sample.always Sample.server_error)
              (constructor Sample.agent Sample.auth_only) StoreInformation 42 [])
    as [Hcall Hmenus].
  split.
  - apply Hcall. reflexivity.
  - apply Hmenus. reflexivity.
Defined.

(** X2. When the transport gives no response at all, a method throws the
    rejection of [fetch] after logging its one request: it prints nothing
    and does not exit. [createChannelMenus] does the same; its warning is
    for responses only. *)
Theorem X2_network_failure_is_thrown
    (is_url : string -> bool)
    (transport : trace -> string -> RequestInit -> fetch_result)
    (this : Https) (ep : endpoint) (channelId : Z) (t : trace) :
  unreachable transport t ->
  (ready (surface_of ep) this = true ->
   call is_url transport this ep t
   = (Threw FetchFailed, t ++ [request_of this ep]))
  /\ (api_ready this = true ->
      createChannelMenus transport this channelId t
      = (Threw FetchFailed, t ++ [menus_request this channelId])).
Proof.
  intros Hoff. split; intros H.
  - rewrite call_behaviour. unfold behaviour. now rewrite H, Hoff.
  - rewrite createChannelMenus_behaviour. now rewrite H, Hoff.
Qed.

Lemma X2_witness :
  fst (createChannel Sample.is_url Cases.offline Sample.client "demo" [])
  = Threw FetchFailed
  /\ createChannelMenus Cases.offline Sample.client 42 []
     = (Threw FetchFailed, [menus_request Sample.client 42]).
Proof.
  destruct (X2_network_failure_is_thrown Sample.is_url Cases.offline
              Sample.client (CreateChannel "demo") 42 []) as [Hcall Hmenus].
  - intros input init. reflexivity.
  - split.
    + change (createChannel Sample.is_url Cases.offline Sample.client "demo")
        with (call Sample.is_url Cases.offline Sample.client (CreateChannel "demo")).
      rewrite Hcall; reflexivity.
    + apply Hmenus. reflexivity.
Defined.

(** X3. Whatever the transport does, a method only extends the trace, and
    with at most one request: nothing is retried. *)
Theorem X3_at_most_one_request
    (is_url : string -> bool)
    (transport : trace -> string -> RequestInit -> fetch_result)
    (this : Https) (ep : endpoint) (channelId : Z) (t : trace) :
  (exists events,
     snd (call is_url transport this ep t) = t ++ events
     /\ (length (fetches events) <= 1)%nat)
  /\ (exists events,
        snd (createChannelMenus transport this channelId t) = t ++ events
        /\ (length (fetches events) <= 1)%nat).
Proof.
  split.
  - rewrite call_behaviour. unfold behaviour.
    destruct (ready (surface_of ep) this).
    + destruct (transport t _ _) as [r|].
      * destruct (accepts ep r).
        -- exists [request_of this ep]. split; [reflexivity | cbn; lia].
        -- destruct ep; cbn [refusal snd]; eexists;
             (split; [rewrite <- ?app_assoc; reflexivity
                     | unfold request_of; cbn; lia]).
      * exists [request_of this ep]. split; [reflexivity | cbn; lia].
    + exists []. split; [now rewrite app_nil_r | cbn; lia].
  - rewrite createChannelMenus_behaviour.
    destruct (api_ready this).
    + destruct (transport t _ _) as [r|].
      * destruct (ok r).
        -- exists [menus_request this channelId].
           split; [reflexivity | cbn; lia].
        -- eexists. split; [reflexivity | unfold menus_request; cbn; lia].
      * exists [menus_request this channelId]. split; [reflexivity | cbn; lia].
    + exists []. split; [now rewrite app_nil_r | cbn; lia].
Qed.

Lemma console_app (a b : trace) : console (a ++ b) = console a ++ console b.
Proof. unfold console. apply List.filter_app. Qed.

(** X4. A method never ends the process silently or with another code:
    when it exits, the code is 1, the transport had answered its request
    with a response [r] that is not 2xx, and the last thing it did was to
    print the failure text for [r]. When it does not exit it prints
    nothing. *)
Theorem X4_exit_only_with_code_1_after_the_report
    (is_url : string -> bool)
    (transport : trace -> string -> RequestInit -> fetch_result)
    (this : Https) (ep : endpoint) (t : trace) :
  (forall code,
     fst (call is_url transport this ep t) = Exited code ->
     code = 1
     /\ exists r,
          ok r = false
          /\ snd (call is_url transport this ep t)
             = t ++ [request_of this ep;
                     ConsoleError
                       (chalk_red (failure_report (label_of ep) r))])
  /\ ((forall code, fst (call is_url transport this ep t) <> Exited code) ->
      console (snd (call is_url transport this ep t)) = console t).
Proof.
  rewrite call_behaviour. unfold behaviour.
  destruct (ready (surface_of ep) this);
    [|split; [intros code [=] | reflexivity]].
  destruct (transport t _ _) as [r|].
  2:{ split; [intros code [=]|]. intros _. cbn [snd].
      rewrite console_app. unfold request_of. cbn. apply app_nil_r. }
  destruct (accepts ep r) eqn:Hacc.
  - split.
    + intros code. cbn [fst]. unfold validated.
      destruct (payload r) as [d|]; [|intros [=]].
      destruct (safe_parse is_url (schema_of ep) d); intros [=].
    + intros _. cbn [snd]. rewrite console_app. unfold request_of. cbn.
      apply app_nil_r.
  - destruct ep; cbn [refusal fst snd accepts] in *;
      try (split;
           [ intros code [= <-]; split; [reflexivity|];
             exists r; split;
             [ now apply negb_true_iff; rewrite Hacc
             | now rewrite <- app_assoc ]
           | intros Hno; now destruct (Hno 1) ]).
    split; [intros code [=]|]. intros _.
    rewrite console_app. unfold request_of. cbn. apply app_nil_r.
Qed.

Lemma X4_witness :
  exists r,
    ok r = false
    /\ snd (checkEligibility Sample.is_url (Sample.always Sample.forbidden)
              Sample.client [])
       = [request_of Sample.client CheckEligibility;
          ConsoleError
            (chalk_red
               (failure_report "GET /v3/channels/catalyst/eligibility" r))].
Proof.
  destruct (X4_exit_only_with_code_1_after_the_report Sample.is_url
              (Sample.always Sample.forbidden) Sample.client CheckEligibility [])
    as [Hexit _].
  destruct (Hexit 1) as [_ Hreport]; [reflexivity|]. exact Hreport.
Defined.

(** X5. The exit of a method cannot be intercepted: on a response that is
    not 2xx, a [try]/[catch] around any method other than [checkDeviceCode]
    never runs its handler, and nothing sequenced after the method runs. *)
Theorem X5_exit_cannot_be_caught
    (is_url : string -> bool)
    (transport : trace -> string -> RequestInit -> fetch_result)
    (this : Https) (ep : endpoint) (t : trace) (r : response)
    (handler : exn -> M json) (B : Type) (next : json -> M B) :
  ready (surface_of ep) this = true -> answers transport t r ->
  ok r = false -> (forall deviceCode, ep <> CheckDeviceCode deviceCode) ->
  let t' :=
    t ++ [request_of this ep;
          ConsoleError (chalk_red (failure_report (label_of ep) r))] in
  try_catch (call is_url transport this ep) handler t = (Exited 1, t')
  /\ bind (call is_url transport this ep) next t = (Exited 1, t').
Proof.
  intros Hready H Hok Hep t'. subst t'.
  assert (Hcall : call is_url transport this ep t
                  = (Exited 1,
                     t ++ [request_of this ep;
                           ConsoleError
                             (chalk_red (failure_report (label_of ep) r))])).
  { rewrite call_behaviour. unfold behaviour. rewrite Hready, H.
    destruct ep as [ |dc| |query| | |name]; cbn [accepts refusal];
      rewrite ?Hok; try (now rewrite <- app_assoc).
    now destruct (Hep dc). }
  unfold try_catch, bind. now rewrite Hcall.
Qed.

Lemma X5_witness :
  try_catch
    (storefrontToken Sample.is_url (Sample.always Sample.server_error)
       Sample.client)
    (fun _ => ret JNull) []
  = (Exited 1,
     [request_of Sample.client StorefrontToken;
      ConsoleError
        (chalk_red
           (failure_report "POST /v3/storefront/api-token" Sample.server_error))]).
Proof.
  destruct (X5_exit_cannot_be_caught Sample.is_url
              (Sample.always Sample.server_error) Sample.client StorefrontToken
              [] Sample.server_error (fun _ => ret JNull) json
              (fun v => ret v)) as [Hcatch _].
  - reflexivity.
  - intros input init. reflexivity.
  - reflexivity.
  - discriminate.
  - exact Hcatch.
Defined.

(** ** The two device-code calls *)

(** X6. [checkDeviceCode] reads a response only when its status is exactly
    200, [getDeviceCode] whenever it is 2xx: a 2xx response other than 200
    is "not yet verified" for the first and a payload to validate for the
    second. *)
Theorem X6_poll_accepts_only_200
    (is_url : string -> bool)
    (transport : trace -> string -> RequestInit -> fetch_result)
    (this : Https) (deviceCode : string) (t : trace) (r : response) :
  auth_ready this = true -> answers transport t r ->
  ok r = true -> status r <> 200 ->
  fst (checkDeviceCode is_url transport this deviceCode t)
  = Threw (Error "Device code not yet verified")
  /\ fst (getDeviceCode is_url transport this t)
     = validated is_url DeviceCodeSchema r.
Proof.
  intros Hready H Hok Hst. split.
  - change (checkDeviceCode is_url transport this deviceCode)
      with (call is_url transport this (CheckDeviceCode deviceCode)).
    rewrite call_behaviour. unfold behaviour. cbn [surface_of ready accepts].
    rewrite Hready, H. apply Z.eqb_neq in Hst. now rewrite Hst.
  - change (getDeviceCode is_url transport this)
      with (call is_url transport this GetDeviceCode).
    rewrite call_behaviour. unfold behaviour. cbn [surface_of ready accepts].
    now rewrite Hready, H, Hok.
Qed.

Lemma X6_witness :
  fst (checkDeviceCode Sample.is_url
         (Sample.always (Cases.created_with Sample.grant_payload))
         Sample.client "abc" [])
  = Threw (Error "Device code not yet verified")
  /\ fst (getDeviceCode Sample.is_url
            (Sample.always (Cases.created_with Sample.device_code_payload))
            Sample.client [])
     = Returned Sample.device_code_payload.
Proof.
  split.
  - apply (X6_poll_accepts_only_200 Sample.is_url
             (Sample.always (Cases.created_with Sample.grant_payload))
             Sample.client "abc" [] (Cases.created_with Sample.grant_payload));
      first [reflexivity | discriminate | intros input init; reflexivity].
  - destruct (X6_poll_accepts_only_200 Sample.is_url
                (Sample.always (Cases.created_with Sample.device_code_payload))
                Sample.client "abc" []
                (Cases.created_with Sample.device_code_payload)) as [_ ->];
      first [reflexivity | discriminate | intros input init; reflexivity].
Defined.

(** X7. [checkDeviceCode] never ends the process and never prints,
    whatever the client holds and whatever the transport does. *)
Theorem X7_checkDeviceCode_never_exits_or_prints
    (is_url : string -> bool)
    (transport : trace -> string -> RequestInit -> fetch_result)
    (this : Https) (deviceCode : string) (t : trace) :
  (forall code,
     fst (checkDeviceCode is_url transport this deviceCode t) <> Exited code)
  /\ console (snd (checkDeviceCode is_url transport this deviceCode t))
     = console t.
Proof.
  change (checkDeviceCode is_url transport this deviceCode)
    with (call is_url transport this (CheckDeviceCode deviceCode)).
  rewrite call_behaviour. unfold behaviour. cbn [surface_of ready accepts refusal].
  destruct (auth_ready this); [|split; [intros code [=] | reflexivity]].
  assert (Hsilent : console (t ++ [request_of this (CheckDeviceCode deviceCode)])
                    = console t).
  { rewrite console_app. unfold request_of. cbn. apply app_nil_r. }
  destruct (transport t _ _) as [r|]; [|split; [intros code [=] | exact Hsilent]].
  destruct (status r =? 200); [|split; [intros code [=] | exact Hsilent]].
  split; [|exact Hsilent].
  intros code. cbn [fst]. unfold validated.
  destruct (payload r) as [d|]; [|intros [=]].
  destruct (safe_parse is_url _ d); intros [=].
Qed.

(** ** The best-effort call *)

(** X8. [createChannelMenus] never ends the process. Once the transport
    has answered, it returns whatever the status and the body are: on a 2xx
    response it prints nothing and does not read the body at all. *)
Theorem X8_createChannelMenus_returns_on_every_response
    (transport : trace -> string -> RequestInit -> fetch_result)
    (this : Https) (channelId : Z) (t : trace) :
  (forall code,
     fst (createChannelMenus transport this channelId t) <> Exited code)
  /\ (forall r,
        api_ready this = true -> answers transport t r ->
        fst (createChannelMenus transport this channelId t) = Returned tt
        /\ (ok r = true ->
            snd (createChannelMenus transport this channelId t)
            = t ++ [menus_request this channelId])).
Proof.
  rewrite createChannelMenus_behaviour. split.
  - intros code. destruct (api_ready this); [|intros [=]].
    destruct (transport t _ _) as [r|]; [|intros [=]].
    destruct (ok r); intros [=].
  - intros r -> H. rewrite H. split.
    + now destruct (ok r).
    + now intros ->.
Qed.

Lemma X8_witness :
  createChannelMenus (Sample.always Cases.no_content) Sample.client 42 []
  = (Returned tt, [menus_request Sample.client 42]).
Proof.
  destruct (X8_createChannelMenus_returns_on_every_response
              (Sample.always Cases.no_content) Sample.client 42 [])
    as [_ Hret].
  destruct (Hret Cases.no_content) as [Hfst Hsnd].
  - reflexivity.
  - intros input init. reflexivity.
  - specialize (Hsnd eq_refl).
    destruct (createChannelMenus (Sample.always Cases.no_content)
                Sample.client 42 []) as [o t'].
    cbn [fst snd] in Hfst, Hsnd. now subst.
Defined.

(** ** What a method returns *)

Lemma schemas_have_distinct_keys (ep : endpoint) :
  distinct_keys (schema_of ep) = true.
Proof. destruct ep; vm_compute; reflexivity. Qed.

Lemma returned_is_validated
    (is_url : string -> bool)
    (transport : trace -> string -> RequestInit -> fetch_result)
    (this : Https) (ep : endpoint) (t : trace) (v : json) :
  fst (call is_url transport this ep t) = Returned v ->
  exists r data,
    transport t (url_of (surface_of ep) this (path_of ep))
      (options (surface_of ep) this (opts_of ep)) = Resolved r
    /\ accepts ep r = true
    /\ payload r = Some data
    /\ safe_parse is_url (schema_of ep) data = inr v.
Proof.
  rewrite call_behaviour. unfold behaviour.
  destruct (ready (surface_of ep) this); [|intros [=]].
  destruct (transport t _ _) as [r|]; [|intros [=]].
  destruct (accepts ep r) eqn:Hacc.
  - cbn [fst]. unfold validated.
    destruct (payload r) as [d|] eqn:Hp; [|intros [=]].
    destruct (safe_parse is_url (schema_of ep) d) as [p|w] eqn:Hv; intros [=].
    subst. now exists r, d.
  - destruct ep; cbn [refusal fst]; intros [=].
Qed.

(** X9. Whatever the server sends, a value that a method returns satisfies
    the method's schema as it stands (validating it again gives it back
    unchanged) and has exactly the top-level keys of the schema, in the
    order of the schema: no other key of the response reaches the caller. *)
Theorem X9_returned_values_satisfy_the_schema
    (is_url : string -> bool)
    (transport : trace -> string -> RequestInit -> fetch_result)
    (this : Https) (ep : endpoint) (t : trace) (v : json) :
  fst (call is_url transport this ep t) = Returned v ->
  safe_parse is_url (schema_of ep) v = inr v
  /\ keys v = schema_keys (schema_of ep)
  /\ is_Some (keys v).
Proof.
  intros H. apply returned_is_validated in H as (r & d & _ & _ & _ & Hv).
  split.
  - apply (safe_parse_again is_url _ (schemas_have_distinct_keys ep) d v Hv).
  - assert (Hobj : exists shape, schema_of ep = ZObject shape)
      by (destruct ep; eexists; reflexivity).
    destruct Hobj as [shape Hs]. rewrite Hs in *.
    apply safe_parse_object_inv in Hv as (props & ys & -> & -> & Hf).
    cbn [keys schema_keys].
    rewrite (parse_fields_keys is_url props shape ys Hf). eauto.
Qed.

Lemma X9_witness :
  keys (JObj [("features",
               JObj [("storefront_limits",
                      JObj [("active", JNum 1);
                            ("total_including_inactive", JNum 3)])])])
  = Some ["features"]
  /\ fst (storeInformation Sample.is_url
            (Sample.always (Sample.ok_with Cases.store_payload))
            Sample.client [])
     = Returned (JObj [("features",
                        JObj [("storefront_limits",
                               JObj [("active", JNum 1);
                                     ("total_including_inactive", JNum 3)])])]).
Proof.
  assert (Hret :
    fst (call Sample.is_url (Sample.always (Sample.ok_with Cases.store_payload))
           Sample.client StoreInformation [])
    = Returned (JObj [("features",
                       JObj [("storefront_limits",
                              JObj [("active", JNum 1);
                                    ("total_including_inactive", JNum 3)])])]))
    by reflexivity.
  destruct (X9_returned_values_satisfy_the_schema _ _ _ _ _ _ Hret)
    as (_ & Hkeys & _).
  split; [exact Hkeys | exact Hret].
Defined.

(** X10. A 2xx payload (status 200 for [checkDeviceCode]) that is an object
    without one of the top-level keys of the method's schema is never
    returned: the method throws a validation error, after its one request
    and without printing or exiting. *)
Theorem X10_payload_without_a_required_key_is_refused
    (is_url : string -> bool)
    (transport : trace -> string -> RequestInit -> fetch_result)
    (this : Https) (ep : endpoint) (t : trace) (r : response)
    (props : list (string * json)) (required : list string) (k : string) :
  ready (surface_of ep) this = true -> answers transport t r ->
  accepts ep r = true ->
  payload r = Some (JObj props) ->
  schema_keys (schema_of ep) = Some required ->
  k ∈ required -> get_prop k props = None ->
  exists path,
    call is_url transport this ep t
    = (Threw (ValidationError path), t ++ [request_of this ep]).
Proof.
  intros Hready H Hacc Hp Hkeys Hin Hnone.
  rewrite call_behaviour. unfold behaviour. rewrite Hready, H, Hacc.
  unfold validated. rewrite Hp.
  destruct (schema_of ep) as [ | | | | | |shape]; try discriminate.
  injection Hkeys as <-. rewrite safe_parse_object.
  destruct (parse_fields_missing is_url props shape k Hin Hnone) as [p ->].
  now exists p.
Qed.

Lemma X10_witness :
  exists path,
    channels Sample.is_url
      (Sample.always (Sample.ok_with Cases.channels_without_meta))
      Sample.client None []
    = (Threw (ValidationError path),
       [request_of Sample.client (Channels None)]).
Proof.
  apply (X10_payload_without_a_required_key_is_refused Sample.is_url
           (Sample.always (Sample.ok_with Cases.channels_without_meta))
           Sample.client (Channels None) []
           (Sample.ok_with Cases.channels_without_meta)
           [("data", JArr [])] ["data"; "meta"] "meta").
  - reflexivity.
  - intros input init. reflexivity.
  - reflexivity.
  - reflexivity.
  - reflexivity.
  - apply list_elem_of_further, list_elem_of_here.
  - reflexivity.
Defined.

(** ** The requests of the other methods *)

Lemma call_request
    (is_url : string -> bool)
    (transport : trace -> string -> RequestInit -> fetch_result)
    (this : Https) (ep : endpoint) (t : trace) :
  ready (surface_of ep) this = true ->
  exists rest,
    snd (call is_url transport this ep t) = t ++ request_of this ep :: rest.
Proof.
  intros Hready. rewrite call_behaviour. unfold behaviour. rewrite Hready.
  destruct (transport t _ _) as [r|]; [|now exists []].
  destruct (accepts ep r); [now exists []|].
  destruct ep; cbn [refusal snd]; eexists; rewrite <- ?app_assoc; reflexivity.
Qed.




(** X12. The requests of the remaining methods. [checkEligibility] goes
    through [sampleDataApi] but asks with GET, without a body, and still
    carries the access token. [checkDeviceCode] POSTs the device code and
    the client identifier to [/device/token]; like [getDeviceCode] it sends
    no [X-Auth-Token], whatever access token the client holds. *)
Theorem X12_requests_of_eligibility_and_device_calls
    (is_url : string -> bool)
    (transport : trace -> string -> RequestInit -> fetch_result)
    (this : Https) (deviceCode : string) (t : trace) :
  (sampleDataApi_ready this = true ->
   exists init rest,
     snd (checkEligibility is_url transport this t)
     = t ++ Fetch (sampleDataApiUrl this +:+ "/stores/" +:+ storeHash this
                     +:+ "/v3/channels/catalyst/eligibility") init :: rest
     /\ method init = Some "GET" /\ body init = None
     /\ header_of init "X-Auth-Token" = Some (accessToken this))
  /\ (auth_ready this = true ->
      (exists init rest,
         snd (checkDeviceCode is_url transport this deviceCode t)
         = t ++ Fetch (bigCommerceAuthUrl this +:+ "/device/token") init :: rest
         /\ method init = Some "POST"
         /\ body init
            = Some (JSON_stringify
                      (JObj [("device_code", JStr deviceCode);
                             ("client_id",
                              JStr "acse0vvawm9r1n0evag4b8e1ea1fo90")]))
         /\ header_of init "X-Auth-Token" = None)
      /\ (exists init rest,
            snd (getDeviceCode is_url transport this t)
            = t ++ Fetch (bigCommerceAuthUrl this +:+ "/device/token") init
                :: rest
            /\ header_of init "X-Auth-Token" = None)).
Proof.
  split; intros Hready; [|split].
  - destruct (call_request is_url transport this CheckEligibility t Hready)
      as [rest Hreq].
    eexists _, rest. split; [exact Hreq|].
    split; [reflexivity|]. split; [reflexivity|].
    unfold header_of, options, sampleDataApi_options;
      cbn [surface_of opts_of headers].
    now simplify_map_eq.
  - destruct (call_request is_url transport this (CheckDeviceCode deviceCode)
                t Hready) as [rest Hreq].
    eexists _, rest. split; [exact Hreq|].
    split; [reflexivity|]. split; [reflexivity|].
    unfold header_of, options, auth_options; cbn [surface_of opts_of headers].
    now simplify_map_eq.
  - destruct (call_request is_url transport this GetDeviceCode t Hready)
      as [rest Hreq].
    eexists _, rest. split; [exact Hreq|].
    unfold header_of, options, auth_options; cbn [surface_of opts_of headers].
    now simplify_map_eq.
Qed.

Lemma X12_witness :
  (exists init rest,
     snd (checkEligibility Sample.is_url (Sample.always Sample.forbidden)
            Sample.client [])
     = Fetch "https://sample.example/stores/abc123/v3/channels/catalyst/eligibility"
         init :: rest
     /\ method init = Some "GET" /\ body init = None
     /\ header_of init "X-Auth-Token" = Some "secret")
  /\ (exists init rest,
        snd (getDeviceCode Sample.is_url (Sample.always Sample.forbidden)
               Sample.client [])
        = Fetch "https://login.example/device/token" init :: rest
        /\ header_of init "X-Auth-Token" = None).
Proof.
  destruct (X12_requests_of_eligibility_and_device_calls Sample.is_url
              (Sample.always Sample.forbidden) Sample.client "abc" [])
    as [Hsample Hauth].
  split.
  - apply Hsample. reflexivity.
  - destruct Hauth as [_ Hget]; [reflexivity | exact Hget].
Defined.

(** ** What the builders leave to the caller *)



(** ** The channel list *)

(** X14. [channels] hands back the channel records in the order and number
    the server sent them, each reduced to [id], [name], [status] and
    [platform]; the [meta] it returns is the empty object, whatever the
    server put there. *)
Theorem X14_channels_keeps_order_and_drops_meta
    (is_url : string -> bool)
    (transport : trace -> string -> RequestInit -> fetch_result)
    (this : Https) (query : option string) (t : trace) (r : response)
    (props : list (string * json)) (records : list json) (v : json) :
  answers transport t r ->
  payload r = Some (JObj props) ->
  get_prop "data" props = Some (JArr records) ->
  fst (channels is_url transport this query t) = Returned v ->
  exists returned,
    v = JObj [("data", JArr returned); ("meta", JObj [])]
    /\ length returned = length records
    /\ Forall2
         (fun sent got =>
            safe_parse is_url
              (ZObject [("id", ZNumber); ("name", ZString);
                        ("status", ZString); ("platform", ZString)]) sent
            = inr got
            /\ keys got = Some ["id"; "name"; "status"; "platform"])
         records returned.
Proof.
  intros H Hp Hdata Hret.
  apply (returned_is_validated is_url transport this (Channels query))
    in Hret as (r' & d & Hr' & _ & Hp' & Hv).
  rewrite H in Hr'. injection Hr' as <-.
  rewrite Hp in Hp'. injection Hp' as <-.
  cbn [schema_of] in Hv.
  unfold BigCommerceChannelsV3ResponseSchema, BigCommerceV3ApiResponseSchema in Hv.
  rewrite safe_parse_object in Hv. cbn [parse_fields] in Hv.
  rewrite Hdata, safe_parse_array in Hv.
  destruct (parse_items is_url _ 0%nat records) as [p|returned] eqn:Hitems;
    [discriminate|].
  destruct (get_prop "meta" props) as [m|]; [|discriminate].
  destruct m as [ | | | | |mprops]; try discriminate.
  rewrite safe_parse_object in Hv. cbn [parse_fields] in Hv.
  injection Hv as <-.
  exists returned. split; [reflexivity|].
  apply parse_items_each in Hitems.
  split; [symmetry; exact (Forall2_length _ _ _ Hitems)|].
  eapply Forall2_impl; [exact Hitems|].
  intros sent got Hgot. split; [exact Hgot|].
  apply safe_parse_object_inv in Hgot as (ps & ys & _ & -> & Hf).
  cbn [keys]. now rewrite (parse_fields_keys is_url ps _ ys Hf).
Qed.

Lemma X14_witness :
  exists returned,
    fst (channels Sample.is_url
           (Sample.always (Sample.ok_with Cases.channels_payload))
           Sample.client None [])
    = Returned (JObj [("data", JArr returned); ("meta", JObj [])])
    /\ length returned = 2%nat.
Proof.
  destruct (X14_channels_keeps_order_and_drops_meta Sample.is_url
              (Sample.always (Sample.ok_with Cases.channels_payload))
              Sample.client None [] (Sample.ok_with Cases.channels_payload)
              _ _ _ ltac:(intros input init; reflexivity) eq_refl eq_refl
              eq_refl)
    as (returned & Hv & Hlen & _).
  exists returned. split; [|exact Hlen].
  rewrite <- Hv. reflexivity.
Defined.

(** ** Payloads that are not what the schema asks for *)

Lemma parse_fields_bad_field
    (is_url : string -> bool) props shape k sk x p :
  (k, sk) ∈ shape -> get_prop k props = Some x ->
  safe_parse is_url sk x = inl p ->
  exists p', parse_fields is_url props shape = inl p'.
Proof.
  intros Hin Hk Hbad. induction shape as [|[k' sk'] rest IH]; cbn.
  - now apply elem_of_nil in Hin.
  - destruct (get_prop k' props) as [x'|] eqn:Hk'; [|eauto].
    destruct (safe_parse is_url sk' x') as [q|y] eqn:Hx'; [eauto|].
    apply elem_of_cons in Hin as [[= -> ->] | Hin]; [congruence|].
    destruct (IH Hin) as [p' ->]. eauto.
Qed.

(** X15. A 2xx payload (status 200 for [checkDeviceCode]) in which the
    value of a top-level key fails the schema of that key (a number where
    a string is asked, an [api_uri] that is not a URL, an empty channel
    name) is never returned: the method throws a validation error after
    its one request, without printing or exiting. *)
Theorem X15_payload_with_a_wrong_field_is_refused
    (is_url : string -> bool)
    (transport : trace -> string -> RequestInit -> fetch_result)
    (this : Https) (ep : endpoint) (t : trace) (r : response)
    (props : list (string * json)) (k : string) (sk : schema) (x : json)
    (issue : list string) :
  ready (surface_of ep) this = true -> answers transport t r ->
  accepts ep r = true ->
  payload r = Some (JObj props) ->
  (k, sk) ∈ schema_shape (schema_of ep) ->
  get_prop k props = Some x ->
  safe_parse is_url sk x = inl issue ->
  exists path,
    call is_url transport this ep t
    = (Threw (ValidationError path), t ++ [request_of this ep]).
Proof.
  intros Hready H Hacc Hp Hin Hk Hbad.
  rewrite call_behaviour. unfold behaviour. rewrite Hready, H, Hacc.
  unfold validated. rewrite Hp.
  destruct (schema_of ep) as [ | | | | | |shape];
    try (now apply elem_of_nil in Hin).
  cbn [schema_shape] in Hin. rewrite safe_parse_object.
  destruct (parse_fields_bad_field is_url props shape k sk x issue Hin Hk Hbad)
    as [p' ->].
  now exists p'.
Qed.

Lemma X15_witness :
  exists path,
    checkDeviceCode Sample.is_url
      (Sample.always (Sample.ok_with Cases.grant_with_bad_uri))
      Sample.client "abc" []
    = (Threw (ValidationError path),
       [request_of Sample.client (CheckDeviceCode "abc")]).
Proof.
  apply (X15_payload_with_a_wrong_field_is_refused Sample.is_url
           (Sample.always (Sample.ok_with Cases.grant_with_bad_uri))
           Sample.client (CheckDeviceCode "abc") []
           (Sample.ok_with Cases.grant_with_bad_uri)
           [("access_token", JStr "tok"); ("store_hash", JStr "abc123");
            ("context", JStr "stores/abc123"); ("api_uri", JStr "api.example")]
           "api_uri" ZStringUrl (JStr "api.example") []).
  - reflexivity.
  - intros input init. reflexivity.
  - reflexivity.
  - reflexivity.
  - do 3 apply list_elem_of_further. apply list_elem_of_here.
  - reflexivity.
  - reflexivity.
Defined.

(** X16. A response that a method goes on to read but whose body is not
    JSON makes the method throw the rejection of [response.json()]; a JSON
    body that is not an object (null, a number, a string, an array) makes
    it throw a validation error. Either way the method has issued its one
    request, printed nothing and not exited. *)
Theorem X16_unusable_bodies_are_thrown
    (is_url : string -> bool)
    (transport : trace -> string -> RequestInit -> fetch_result)
    (this : Https) (ep : endpoint) (t : trace) (r : response) :
  ready (surface_of ep) this = true -> answers transport t r ->
  accepts ep r = true ->
  (payload r = None ->
   call is_url transport this ep t
   = (Threw BodyNotJson, t ++ [request_of this ep]))
  /\ (forall data,
        payload r = Some data -> keys data = None ->
        call is_url transport this ep t
        = (Threw (ValidationError []), t ++ [request_of this ep])).
Proof.
  intros Hready H Hacc.
  assert (Hcall : call is_url transport this ep t
                  = (validated is_url (schema_of ep) r,
                     t ++ [request_of this ep])).
  { rewrite call_behaviour. unfold behaviour. now rewrite Hready, H, Hacc. }
  rewrite Hcall. unfold validated. split.
  - intros Hp. now rewrite Hp.
  - intros data Hp Hkeys. rewrite Hp.
    destruct ep; destruct data; try discriminate; reflexivity.
Qed.

Lemma X16_witness :
  storefrontToken Sample.is_url (Sample.always Cases.no_content)
    Sample.client []
  = (Threw BodyNotJson, [request_of Sample.client StorefrontToken])
  /\ storefrontToken Sample.is_url (Sample.always (Sample.ok_with (JArr [])))
       Sample.client []
     = (Threw (ValidationError []), [request_of Sample.client StorefrontToken]).
Proof.
  split.
  - destruct (X16_unusable_bodies_are_thrown Sample.is_url
                (Sample.always Cases.no_content) Sample.client StorefrontToken
                [] Cases.no_content) as [Hnone _].
    + reflexivity.
    + intros input init. reflexivity.
    + reflexivity.
    + apply Hnone. reflexivity.
  - destruct (X16_unusable_bodies_are_thrown Sample.is_url
                (Sample.always (Sample.ok_with (JArr []))) Sample.client
                StorefrontToken [] (Sample.ok_with (JArr []))) as [_ Hbad].
    + reflexivity.
    + intros input init. reflexivity.
    + reflexivity.
    + apply (Hbad (JArr [])); reflexivity.
Defined.
